(** * FreeFeed server: timelines controller (API v2) and the Comment model

    A shallow embedding of
    - [app/controllers/api/v2/TimelinesController.js]: [bestOf],
      [getCommonParams], [genericTimeline], [userTimeline], [ownTimeline];
    - the [Comment] model: the [body] setter, [validate], [create],
      [destroy].

    JavaScript values are embedded as follows.  A query-string value is an
    [option string] ([None] is [undefined]); a [Number] that the code only
    uses as an integer is a [Z] and [NaN] is [None]; [null] ids are [None];
    a [Date] is its time value in milliseconds and an invalid [Date] is
    [None]; arrays are lists; objects used as maps are association lists or
    [gmap]s.  A thrown exception is the [inl] side of a sum. *)

From Stdlib Require Import ZArith Ascii String List Bool Lia.
From stdpp Require Import base option list strings gmap fin_maps.

Local Open Scope Z_scope.

(** ** JavaScript built-ins used by the code *)

Module JS.

(** Exceptions the modelled code can raise. *)
Inductive Error : Type :=
| ErrorMsg (msg : string)      (* [throw new Error(msg)] *)
| RangeError                   (* invalid array length *)
| TypeError.                   (* property access on [null]/[undefined] *)

Definition Result (A : Type) : Type := (Error + A)%type.

(** [StrWhiteSpaceChar] restricted to the code units a [string] holds here:
    TAB, LF, VT, FF, CR, SP and NBSP. *)
Definition isWhiteSpace (c : ascii) : bool :=
  let n := nat_of_ascii c in
  ((9 <=? n)%nat && (n <=? 13)%nat) || (n =? 32)%nat || (n =? 160)%nat.

Fixpoint trimStart (s : string) : string :=
  match s with
  | String c r => if isWhiteSpace c then trimStart r else s
  | EmptyString => EmptyString
  end.

(** [trimEnd]: a character is kept when it, or something after it, is not
    white space. *)
Fixpoint trimEnd (s : string) : string :=
  match s with
  | String c r =>
      match trimEnd r with
      | EmptyString => if isWhiteSpace c then EmptyString else String c EmptyString
      | r' => String c r'
      end
  | EmptyString => EmptyString
  end.

(** [String.prototype.trim] *)
Definition trim (s : string) : string := trimEnd (trimStart s).

Definition toLowerChar (c : ascii) : ascii :=
  let n := nat_of_ascii c in
  if (65 <=? n)%nat && (n <=? 90)%nat then ascii_of_nat (n + 32) else c.

(** [String.prototype.toLowerCase] on the ASCII letters; the other code
    units are kept.  (No character outside ASCII becomes a letter of 'yes',
    'true' or 'on' in lower case, so the test of [with-my-posts] reads the
    same.) *)
Fixpoint toLowerCase (s : string) : string :=
  match s with
  | String c r => String (toLowerChar c) (toLowerCase r)
  | EmptyString => EmptyString
  end.

Definition digitValue (c : ascii) : option Z :=
  let n := nat_of_ascii c in
  if (48 <=? n)%nat && (n <=? 57)%nat then Some (Z.of_nat n - 48) else None.

(** The longest prefix of decimal digits, as a number; [acc] is [None]
    until a digit has been read. *)
Fixpoint parseDigits (acc : option Z) (s : string) : option Z :=
  match s with
  | String c r =>
      match digitValue c with
      | Some d => parseDigits (Some (10 * default 0 acc + d)) r
      | None => acc
      end
  | EmptyString => acc
  end.

(** [parseInt(v, 10)]: [None] is [NaN].  [undefined] is first converted to
    the string "undefined", which has no digits.  Leading white space is
    skipped, one sign is accepted, then the digits up to the first other
    character are read.  The number is exact here; JavaScript rounds it to
    a double beyond 2^53, which keeps its sign and its order with 120. *)
Definition parseInt10 (v : option string) : option Z :=
  match v with
  | None => None
  | Some s =>
      match trimStart s with
      | String "-" r => Z.opp <$> parseDigits None r
      | String "+" r => parseDigits None r
      | r => parseDigits None r
      end
  end.

(** [a || b] on a number that may be [NaN]: [NaN] and [0] are falsy. *)
Definition numberOr (a : option Z) (b : Z) : Z :=
  match a with
  | Some n => if n =? 0 then b else n
  | None => b
  end.

(** [a || b] on a string that may be [undefined]: [undefined] and the
    empty string are falsy. *)
Definition stringOr (a : option string) (b : string) : string :=
  match a with
  | Some EmptyString | None => b
  | Some s => s
  end.

(** Truthiness of a value that is a string, [null] or [undefined]. *)
Definition truthy (v : option string) : bool :=
  match v with
  | Some EmptyString | None => false
  | Some _ => true
  end.

(** [arr.includes(x)] with [===] on strings. *)
Definition includes (x : string) (arr : list string) : bool :=
  existsb (String.eqb x) arr.

(** [arr.includes(x)] where [x] or the elements may be [null]. *)
Definition includesOpt (x : option string) (arr : list (option string)) : bool :=
  existsb (fun y => bool_decide (x = y)) arr.

(** [arr.includes(x)] on integers. *)
Definition includesZ (x : Z) (arr : list Z) : bool :=
  existsb (Z.eqb x) arr.

(** [arr.length = n].  A negative [n] raises a [RangeError]; a smaller [n]
    truncates.  The code only assigns a length smaller than the current
    one (so below the 2^32 bound of array lengths); the growing case keeps
    the array as it is here. *)
Definition setLength {A : Type} (arr : list A) (n : Z) : Result (list A) :=
  if n <? 0 then inl RangeError else inr (take (Z.to_nat n) arr).

(** [arr.length] *)
Definition len {A : Type} (arr : list A) : Z := Z.of_nat (length arr).

(** [str.length] *)
Definition strlen (s : string) : Z := Z.of_nat (String.length s).

(** A string that consists of white space only. *)
Definition blank (s : string) : Prop :=
  Forall (fun c => isWhiteSpace c = true) (list_ascii_of_string s).

(** [Number.MAX_SAFE_INTEGER], 2^53 - 1.  The numbers of the code are
    doubles: up to this one an integer and its successor are exact, so
    that [n + 1] on [Z] is the sum of the code. *)
Definition MAX_SAFE_INTEGER : Z := 9007199254740991.

End JS.

(** ** The timelines controller *)

Module Timelines.
Import JS.

Definition ORD_UPDATED : string := "bumped".
Definition ORD_CREATED : string := "created".
Definition HOMEFEED_MODE_FRIENDS_ONLY : string := "friends-only".
Definition HOMEFEED_MODE_CLASSIC : string := "classic".
Definition HOMEFEED_MODE_FRIENDS_ALL_ACTIVITY : string := "friends-all-activity".

(** *** Data *)

(** A user or group: the properties the controller reads. *)
Record User : Type := mkUser {
  user_id : string;
  user_type : string;                    (* 'user' or 'group' *)
  isPrivate : string;                    (* '0' or '1' *)
  isProtected : string;                  (* '0' or '1' *)
  user_hiddenCommentTypes : list Z       (* [getHiddenCommentTypes()] *)
}.

Record Timeline : Type := mkTimeline {
  timeline_id : string;
  intId : Z;
  timeline_name : string;
  userId : string
}.

(** [ctx.request.query]: the keys the controller reads. *)
Record Query : Type := mkQuery {
  query_limit : option string;
  query_offset : option string;
  query_sort : option string;
  query_with_my_posts : option string;
  query_homefeed_mode : option string;
  query_created_before : option string;
  query_created_after : option string
}.

(** [ctx]: the query and [ctx.state]. *)
Record Ctx : Type := mkCtx {
  query : Query;
  state_user : option User;              (* the viewer, when authenticated *)
  state_targetUser : User                (* set by [targetUserRequired] *)
}.

(** The object [getCommonParams] returns. *)
Record CommonParams : Type := mkCommonParams {
  cp_limit : Z;
  cp_offset : Z;
  cp_sort : string;
  cp_homefeedMode : string;
  cp_withMyPosts : bool;
  cp_hiddenCommentTypes : list Z;
  cp_createdBefore : option Z;
  cp_createdAfter : option Z
}.

(** The full parameter object of [genericTimeline], after its defaults. *)
Record Params : Type := mkParams {
  limit : Z;
  offset : Z;
  sort : string;
  homefeedMode : string;
  withLocalBumps : bool;
  withoutDirects : bool;
  withMyPosts : bool;
  hiddenCommentTypes : list Z;
  createdBefore : option Z;
  createdAfter : option Z
}.

(** A parameter object in which keys may be missing ([None]). *)
Record PartialParams : Type := mkPartialParams {
  pp_limit : option Z;
  pp_offset : option Z;
  pp_sort : option string;
  pp_homefeedMode : option string;
  pp_withLocalBumps : option bool;
  pp_withoutDirects : option bool;
  pp_withMyPosts : option bool;
  pp_hiddenCommentTypes : option (list Z);
  pp_createdBefore : option (option Z);
  pp_createdAfter : option (option Z)
}.

(** [{}] *)
Definition emptyParams : PartialParams :=
  mkPartialParams None None None None None None None None None None.

(** [b] when the key is set in the later object, [a] otherwise. *)
Definition later {A : Type} (a b : option A) : option A :=
  match b with Some _ => b | None => a end.

(** [{ ...a, ...b }] *)
Definition spread (a b : PartialParams) : PartialParams :=
  {| pp_limit := later (pp_limit a) (pp_limit b);
     pp_offset := later (pp_offset a) (pp_offset b);
     pp_sort := later (pp_sort a) (pp_sort b);
     pp_homefeedMode := later (pp_homefeedMode a) (pp_homefeedMode b);
     pp_withLocalBumps := later (pp_withLocalBumps a) (pp_withLocalBumps b);
     pp_withoutDirects := later (pp_withoutDirects a) (pp_withoutDirects b);
     pp_withMyPosts := later (pp_withMyPosts a) (pp_withMyPosts b);
     pp_hiddenCommentTypes := later (pp_hiddenCommentTypes a) (pp_hiddenCommentTypes b);
     pp_createdBefore := later (pp_createdBefore a) (pp_createdBefore b);
     pp_createdAfter := later (pp_createdAfter a) (pp_createdAfter b) |}.

(** The object of [getCommonParams] as a parameter object: its eight keys
    are set. *)
Definition ofCommon (c : CommonParams) : PartialParams :=
  {| pp_limit := Some (cp_limit c);
     pp_offset := Some (cp_offset c);
     pp_sort := Some (cp_sort c);
     pp_homefeedMode := Some (cp_homefeedMode c);
     pp_withLocalBumps := None;
     pp_withoutDirects := None;
     pp_withMyPosts := Some (cp_withMyPosts c);
     pp_hiddenCommentTypes := Some (cp_hiddenCommentTypes c);
     pp_createdBefore := Some (cp_createdBefore c);
     pp_createdAfter := Some (cp_createdAfter c) |}.

(** The defaults [genericTimeline] spreads its [params] over. *)
Definition withDefaults (p : PartialParams) : Params :=
  {| limit := default 30 (pp_limit p);
     offset := default 0 (pp_offset p);
     sort := default ORD_UPDATED (pp_sort p);
     homefeedMode := default HOMEFEED_MODE_CLASSIC (pp_homefeedMode p);
     withLocalBumps := default false (pp_withLocalBumps p);
     withoutDirects := default false (pp_withoutDirects p);
     withMyPosts := default false (pp_withMyPosts p);
     hiddenCommentTypes := default [] (pp_hiddenCommentTypes p);
     createdBefore := default None (pp_createdBefore p);
     createdAfter := default None (pp_createdAfter p) |}.

Definition setLimit (p : Params) (l : Z) : Params :=
  mkParams l (offset p) (sort p) (homefeedMode p) (withLocalBumps p)
    (withoutDirects p) (withMyPosts p) (hiddenCommentTypes p)
    (createdBefore p) (createdAfter p).

Definition setWithLocalBumps (p : Params) (b : bool) : Params :=
  mkParams (limit p) (offset p) (sort p) (homefeedMode p) b
    (withoutDirects p) (withMyPosts p) (hiddenCommentTypes p)
    (createdBefore p) (createdAfter p).

(** A parameter object with its [withMyPosts] key set to [flag]. *)
Definition requestWithMyPosts (p : PartialParams) (flag : option bool)
    : PartialParams :=
  mkPartialParams (pp_limit p) (pp_offset p) (pp_sort p) (pp_homefeedMode p)
    (pp_withLocalBumps p) (pp_withoutDirects p) flag
    (pp_hiddenCommentTypes p) (pp_createdBefore p) (pp_createdAfter p).

Definition setWithMyPosts (p : Params) (b : bool) : Params :=
  mkParams (limit p) (offset p) (sort p) (homefeedMode p) (withLocalBumps p)
    (withoutDirects p) b (hiddenCommentTypes p)
    (createdBefore p) (createdAfter p).

(** Rows returned by [getPostsWithStuffByIds]: the properties read here. *)
Record Post : Type := mkPost {
  post_id : string;
  post_userId : string;
  feedIntIds : list Z
}.

Record Destination : Type := mkDestination {
  dest_id : string;
  dest_name : string;
  dest_user : string
}.

Record Attachment : Type := mkAttachment { att_id : string }.

Record Comment : Type := mkComment {
  comment_id : string;
  comment_userId : string;
  comment_hideType : Z
}.

Record PostWithStuff : Type := mkPostWithStuff {
  pws_post : Post;
  pws_destinations : list Destination;
  pws_attachments : list Attachment;
  pws_comments : list Comment;
  pws_likes : list string;
  pws_omittedComments : Z;
  pws_omittedLikes : Z
}.

(** The options object passed to [getTimelinePostsIds]:
    [{ ...params, authorsIds, activityFeedIds, limit: params.limit + 1 }]. *)
Record PostsQuery : Type := mkPostsQuery {
  pq_params : Params;
  pq_authorsIds : list (option string);
  pq_activityFeedIds : list Z
}.

Record Config : Type := mkConfig { dynamicRiverOfNews : bool }.

(** The three homefeed modes. *)
Definition homefeedModes : list string :=
  [HOMEFEED_MODE_FRIENDS_ONLY; HOMEFEED_MODE_CLASSIC;
   HOMEFEED_MODE_FRIENDS_ALL_ACTIVITY].

(** The feeds of a user or group that are read under an access check. *)
Definition checkedFeeds : list string := ["Posts"; "Comments"; "Likes"].

(** *** Collaborators that are not part of the controller *)

(** [dbAdapter], as the queries the controller runs against one state of
    the database, and the model methods that only read it. *)
Record DbAdapter (StatsRow : Type) : Type := mkDbAdapter {
  (* the bans table: (banning user, banned user) *)
  bans : list (string * string);
  getUserNamedFeed : string -> string -> Timeline;
  (* [timeline.getUser()] *)
  getUser : Timeline -> User;
  (* [owner.getCommentsTimelineIntId()], [owner.getLikesTimelineIntId()] *)
  getCommentsTimelineIntId : User -> Z;
  getLikesTimelineIntId : User -> Z;
  getUserSubscribersIds : string -> list string;
  (* [{ destinations, activities }] *)
  getSubscriprionsIntIds : option string -> list Z * list Z;
  getUserFriendIds : option string -> list string;
  getTimelinePostsIds :
    string -> list Z -> option string -> PostsQuery -> list string;
  (* one record of [getPostsWithStuffByIds] *)
  getPostWithStuff : string -> option string -> Params -> option PostWithStuff;
  getTimelineSubscribersIds : string -> list string;
  getGroupsAdministratorsIds :
    list string -> option string -> list (string * list string);
  getUsersByIdsAssoc : list string -> list (string * User);
  getUsersStatsAssoc : list string -> list (string * StatsRow);
  bestPosts : option User -> Z -> Z -> list Post;
  initRawPosts : list Post -> option string -> list Post
}.

Arguments bans {StatsRow} _.
Arguments getUserNamedFeed {StatsRow} _ _ _.
Arguments getUser {StatsRow} _ _.
Arguments getCommentsTimelineIntId {StatsRow} _ _.
Arguments getLikesTimelineIntId {StatsRow} _ _.
Arguments getUserSubscribersIds {StatsRow} _ _.
Arguments getSubscriprionsIntIds {StatsRow} _ _.
Arguments getUserFriendIds {StatsRow} _ _.
Arguments getTimelinePostsIds {StatsRow} _ _ _ _ _.
Arguments getPostWithStuff {StatsRow} _ _ _ _.
Arguments getTimelineSubscribersIds {StatsRow} _ _.
Arguments getGroupsAdministratorsIds {StatsRow} _ _ _.
Arguments getUsersByIdsAssoc {StatsRow} _ _.
Arguments getUsersStatsAssoc {StatsRow} _ _.
Arguments bestPosts {StatsRow} _ _ _ _.
Arguments initRawPosts {StatsRow} _ _ _.

(** Modelled from the spec: [dbAdapter.getUsersBansOrWasBannedBy] is not
    part of the controller.  The ban relation is a set of directed edges
    (banning user, banned user) and the check is symmetric, true if either
    direction holds: the users the viewer banned, then the users who
    banned the viewer. *)
Definition getUsersBansOrWasBannedBy {StatsRow : Type}
    (db : DbAdapter StatsRow) (viewerId : string) : list string :=
  (snd <$> filter (fun b => fst b = viewerId) (bans db))
  ++ (fst <$> filter (fun b => snd b = viewerId) (bans db)).

(** A ban relation between two users: either banned the other. *)
Definition banRelation {StatsRow : Type} (db : DbAdapter StatsRow)
    (a b : string) : Prop :=
  (a, b) ∈ bans db \/ (b, a) ∈ bans db.

(** Modelled from the spec: [dbAdapter.getPostsWithStuffByIds] is not part
    of the controller.  It attaches to each returned post its
    destinations, comments, attachments, likes and omitted counts: one
    record per requested id, in the order of the ids, and none for an id
    the store has no visible post for. *)
Definition getPostsWithStuffByIds {StatsRow : Type}
    (db : DbAdapter StatsRow) (postsIds : list string)
    (viewerId : option string) (params : Params) : list PostWithStuff :=
  omap (fun postId => getPostWithStuff db postId viewerId params) postsIds.

(** The serializers of [serializers/v2]. *)
Record Serializers (SPost SComment SAttachment SUser SCollection StatsRow : Type)
    : Type := mkSerializers {
  serializePost : Post -> SPost;
  (* the [createdBy] property of a serialized post *)
  createdBy : SPost -> string;
  serializeComment : Comment -> option SComment;
  serializeAttachment : Attachment -> option SAttachment;
  userSerializerFunction :
    list (string * User) -> list (string * StatsRow) ->
    list (string * list string) -> string -> SUser;
  (* the [type] and [id] properties of a serialized user *)
  suser_type : SUser -> string;
  suser_id : SUser -> string;
  serializePostsCollection : list Post -> option string -> SCollection
}.

Arguments serializePost {_ _ _ _ _ _} _ _.
Arguments createdBy {_ _ _ _ _ _} _ _.
Arguments serializeComment {_ _ _ _ _ _} _ _.
Arguments serializeAttachment {_ _ _ _ _ _} _ _.
Arguments userSerializerFunction {_ _ _ _ _ _} _ _ _ _ _.
Arguments suser_type {_ _ _ _ _ _} _ _.
Arguments suser_id {_ _ _ _ _ _} _ _.
Arguments serializePostsCollection {_ _ _ _ _ _} _ _ _.

(** *** Results *)

(** A post of the response: the serialized post and the properties the
    controller adds to it. *)
Record PostJson (SPost : Type) : Type := mkPostJson {
  pj_post : SPost;
  postedTo : list string;
  pj_comments : list string;
  pj_attachments : list string;
  pj_likes : list string;
  omittedComments : Z;
  omittedLikes : Z;
  isHidden : bool                        (* present only if true *)
}.

Arguments mkPostJson {SPost} _ _ _ _ _ _ _ _.
Arguments pj_post {SPost} _.
Arguments postedTo {SPost} _.
Arguments isHidden {SPost} _.

(** The [timelines] object of the response. *)
Record TimelineJson : Type := mkTimelineJson {
  tj_id : string;
  tj_name : string;
  tj_user : string;
  tj_posts : list string;
  tj_subscribers : list string
}.

(** The object [genericTimeline] returns. *)
Record Feed (SPost SComment SAttachment SUser : Type) : Type := mkFeed {
  timelines : TimelineJson;
  users : list SUser;
  subscriptions : list Destination;
  subscribers : list SUser;
  admins : list SUser;
  isLastPage : bool;
  posts : list (PostJson SPost);
  comments : list SComment;
  attachments : list SAttachment
}.

Arguments mkFeed {_ _ _ _} _ _ _ _ _ _ _ _ _.
Arguments timelines {_ _ _ _} _.
Arguments users {_ _ _ _} _.
Arguments subscriptions {_ _ _ _} _.
Arguments subscribers {_ _ _ _} _.
Arguments admins {_ _ _ _} _.
Arguments isLastPage {_ _ _ _} _.
Arguments posts {_ _ _ _} _.
Arguments comments {_ _ _ _} _.
Arguments attachments {_ _ _ _} _.

(** The body [bestOf] answers with: [{ ...postsCollectionJson, isLastPage }]. *)
Record BestOfBody (SCollection : Type) : Type := mkBestOfBody {
  best_collection : SCollection;
  best_isLastPage : bool
}.

Arguments mkBestOfBody {_} _ _.
Arguments best_collection {_} _.
Arguments best_isLastPage {_} _.

(** *** lodash and [Set] helpers *)

(** [set.add(x)] on a [Set] kept in insertion order. *)
Definition setAdd (s : list string) (x : string) : list string :=
  if includes x s then s else s ++ [x].

(** [xs.forEach((x) => set.add(x))] *)
Definition setAddAll (s : list string) (xs : list string) : list string :=
  fold_left setAdd xs s.

(** [_.uniq] *)
Definition uniq (xs : list string) : list string := setAddAll [] xs.

(** [_.compact] on strings: the empty string is falsy. *)
Definition compact (xs : list string) : list string :=
  filter (fun x => x <> EmptyString) xs.

(** [_.uniqBy(ds, 'id')] *)
Fixpoint uniqById (seen : list string) (ds : list Destination) : list Destination :=
  match ds with
  | d :: r =>
      if includes (dest_id d) seen then uniqById seen r
      else d :: uniqById (dest_id d :: seen) r
  | [] => []
  end.

(** [obj[key] || []] on an object whose values are arrays. *)
Fixpoint lookupOrEmpty (obj : list (string * list string)) (key : string)
    : list string :=
  match obj with
  | (k, v) :: r => if String.eqb k key then v else lookupOrEmpty r key
  | [] => []
  end.

(** *** The controller *)

Section Controller.
Context {SPost SComment SAttachment SUser SCollection StatsRow : Type}.
Context (ser : Serializers SPost SComment SAttachment SUser SCollection StatsRow).
Context (db : DbAdapter StatsRow).
Context (config : Config).
(** [Date.parse]: the time value of a date string, [None] when the
    string is not a valid date. *)
Context (dateParse : string -> option Z).

(** [new Date(v)] for a string or [undefined]. *)
Definition newDate (v : option string) : option Z :=
  match v with
  | Some s => dateParse s
  | None => None
  end.

(** Fetch common timelines parameters from the request. *)
Definition getCommonParams (ctx : Ctx) (defaultSort : string) : CommonParams :=
  let q := query ctx in
  let viewer := state_user ctx in
  let limit :=
    match parseInt10 (query_limit q) with
    | Some l => if (l <? 0) || (l >? 120) then 30 else l
    | None => 30
    end in
  let offset :=
    match parseInt10 (query_offset q) with
    | Some o => if o <? 0 then 0 else o
    | None => 0
    end in
  let createdBefore := newDate (query_created_before q) in
  let createdAfter := newDate (query_created_after q) in
  let withMyPosts :=
    includes (toLowerCase (stringOr (query_with_my_posts q) ""))
      ["yes"; "true"; "1"; "on"] in
  let sort :=
    match query_sort q with
    | Some s =>
        if String.eqb s ORD_CREATED || String.eqb s ORD_UPDATED
        then s else defaultSort
    | None => defaultSort
    end in
  let homefeedMode :=
    match query_homefeed_mode q with
    | Some m =>
        if includes m [HOMEFEED_MODE_FRIENDS_ONLY; HOMEFEED_MODE_CLASSIC;
                       HOMEFEED_MODE_FRIENDS_ALL_ACTIVITY]
        then m else HOMEFEED_MODE_CLASSIC
    | None => HOMEFEED_MODE_CLASSIC
    end in
  let hiddenCommentTypes :=
    match viewer with
    | Some v => user_hiddenCommentTypes v
    | None => []
    end in
  mkCommonParams limit offset sort homefeedMode withMyPosts
    hiddenCommentTypes createdBefore createdAfter.

(** The first statements of [genericTimeline]: the defaults, then
    [withLocalBumps] and [withMyPosts] are restricted. *)
Definition effectiveParams (timeline : Timeline) (viewerId : option string)
    (params : PartialParams) : Params :=
  let params := withDefaults params in
  let params :=
    setWithLocalBumps params
      (withLocalBumps params && truthy viewerId
       && String.eqb (sort params) ORD_UPDATED) in
  setWithMyPosts params
    (withMyPosts params && String.eqb (timeline_name timeline) "MyDiscussions").

(** Checking access rights for viewer (the [Posts]/[Comments]/[Likes]
    branch). *)
Definition checkAccess (viewerId : option string) (owner : User) : bool :=
  match viewerId with
  | None | Some EmptyString =>
      String.eqb (isProtected owner) "0"
  | Some v =>
      if negb (String.eqb v (user_id owner)) then
        let canViewUser :=
          if String.eqb (isPrivate owner) "1"
          then includes v (getUserSubscribersIds db (user_id owner))
          else true in
        if canViewUser
        then negb (includes (user_id owner) (getUsersBansOrWasBannedBy db v))
        else canViewUser
      else true
  end.

(** What the feed is read from, and whether the viewer may read it. *)
Record Sources : Type := mkSources {
  timelineIds : list Z;
  activityFeedIds : list Z;
  authorsIds : list (option string);
  canViewUser : bool
}.

(** The branches of [genericTimeline] on the name of the timeline. *)
Definition resolveSources (timeline : Timeline) (viewerId : option string)
    (params : Params) : Sources :=
  let timelineIds := [intId timeline] in
  let authorsIds := if withMyPosts params then [viewerId] else [] in
  let owner := getUser db timeline in
  if String.eqb (timeline_name timeline) "MyDiscussions" then
    mkSources
      [getCommentsTimelineIntId db owner; getLikesTimelineIntId db owner]
      [] authorsIds true
  else if includes (timeline_name timeline) checkedFeeds then
    mkSources timelineIds [] authorsIds (checkAccess viewerId owner)
  else if String.eqb (timeline_name timeline) "RiverOfNews"
          && dynamicRiverOfNews config then
    let '(destinations, activities) := getSubscriprionsIntIds db viewerId in
    if String.eqb (homefeedMode params) HOMEFEED_MODE_FRIENDS_ALL_ACTIVITY then
      let authorsIds := authorsIds ++ (Some <$> getUserFriendIds db viewerId) in
      mkSources (destinations ++ activities) []
        (if includesOpt viewerId authorsIds then authorsIds
         else authorsIds ++ [viewerId])
        true
    else if String.eqb (homefeedMode params) HOMEFEED_MODE_CLASSIC then
      mkSources destinations activities authorsIds true
    else
      mkSources destinations [] authorsIds true
  else
    mkSources timelineIds [] authorsIds true.

(** The options of the [getTimelinePostsIds] call. *)
Definition postsQuery (params : Params) (src : Sources) : PostsQuery :=
  mkPostsQuery (setLimit params (limit params + 1))
    (authorsIds src) (activityFeedIds src).

(** The ids fetched, before they are cut to the page. *)
Definition fetchPostsIds (timeline : Timeline) (viewerId : option string)
    (params : Params) (src : Sources) : list string :=
  if canViewUser src
  then getTimelinePostsIds db (timeline_name timeline) (timelineIds src)
         viewerId (postsQuery params src)
  else [].

(** One turn of the loop over [postsWithStuff]: the post of the response. *)
Definition postJson (hidesFeedId : Z) (p : PostWithStuff) : PostJson SPost :=
  mkPostJson
    (serializePost ser (pws_post p))
    (dest_id <$> pws_destinations p)
    (comment_id <$> pws_comments p)
    (att_id <$> pws_attachments p)
    (pws_likes p)
    (pws_omittedComments p)
    (pws_omittedLikes p)
    (includesZ hidesFeedId (feedIntIds (pws_post p))).

(** One turn of the loop: the ids added to [allUserIds], in order. *)
Definition postUserIds (p : PostWithStuff) : list string :=
  createdBy ser (serializePost ser (pws_post p))
  :: pws_likes p
  ++ (comment_userId <$> pws_comments p)
  ++ (dest_user <$> pws_destinations p).

(** [hidesFeedId]: the integer id of the viewer's Hides feed, 0 without a
    viewer. *)
Definition viewerHidesFeedId (viewerId : option string) : Z :=
  match viewerId with
  | None | Some EmptyString => 0
  | Some v => intId (getUserNamedFeed db v "Hides")
  end.

(** [genericTimeline(timeline, viewerId, params)] *)
Definition genericTimeline (timeline : Timeline) (viewerId : option string)
    (params : PartialParams)
    : Result (Feed SPost SComment SAttachment SUser) :=
  let params := effectiveParams timeline viewerId params in
  let hidesFeedId := viewerHidesFeedId viewerId in
  let src := resolveSources timeline viewerId params in
  let canViewUser := canViewUser src in
  let postsIds := fetchPostsIds timeline viewerId params src in
  let isLastPage := len postsIds <=? limit params in
  match (if negb isLastPage then setLength postsIds (limit params)
         else inr postsIds) with
  | inl e => inl e
  | inr postsIds =>
      let postsWithStuff := getPostsWithStuffByIds db postsIds viewerId params in
      let allPosts := postJson hidesFeedId <$> postsWithStuff in
      let allDestinations := concat (pws_destinations <$> postsWithStuff) in
      let allSubscribers :=
        concat ((fun p => dest_user <$> pws_destinations p) <$> postsWithStuff) in
      let allComments :=
        concat ((fun p => serializeComment ser <$> pws_comments p)
                <$> postsWithStuff) in
      let allAttachments :=
        concat ((fun p => serializeAttachment ser <$> pws_attachments p)
                <$> postsWithStuff) in
      let allUserIds := setAddAll [] (concat (postUserIds <$> postsWithStuff)) in
      let tSubscribers :=
        if canViewUser then getTimelineSubscribersIds db (timeline_id timeline)
        else [] in
      let timelines :=
        mkTimelineJson (timeline_id timeline) (timeline_name timeline)
          (userId timeline) postsIds tSubscribers in
      let allSubscribers := allSubscribers ++ [userId timeline] ++ tSubscribers in
      let allUserIds := setAddAll allUserIds allSubscribers in
      let allGroupAdmins :=
        if canViewUser then getGroupsAdministratorsIds db allUserIds viewerId
        else [] in
      let allUserIds := setAddAll allUserIds (concat (snd <$> allGroupAdmins)) in
      let allUsersAssoc := getUsersByIdsAssoc db allUserIds in
      let allStatsAssoc := getUsersStatsAssoc db allUserIds in
      let uniqSubscribers := compact (uniq allSubscribers) in
      let serializeUser :=
        userSerializerFunction ser allUsersAssoc allStatsAssoc allGroupAdmins in
      let users :=
        filter (fun u => String.eqb (suser_type ser u) "user"
                         || String.eqb (suser_id ser u) (userId timeline) = true)
          (serializeUser <$> (fst <$> allUsersAssoc)) in
      let subscribers :=
        if canViewUser then serializeUser <$> uniqSubscribers else [] in
      let subscriptions :=
        if canViewUser then uniqById [] allDestinations else [] in
      let admins :=
        if canViewUser
        then serializeUser <$> lookupOrEmpty allGroupAdmins (userId timeline)
        else [] in
      inr (mkFeed timelines users subscriptions subscribers admins isLastPage
             allPosts (omap id allComments) (omap id allAttachments))
  end.

(** [viewer ? viewer.id : null] *)
Definition viewerIdOf (ctx : Ctx) : option string :=
  match state_user ctx with
  | Some viewer => Some (user_id viewer)
  | None => None
  end.

(** [{ withoutDirects: (feedName !== 'Posts'), ...getCommonParams(ctx) }] *)
Definition userTimelineParams (feedName : string) (ctx : Ctx) : PartialParams :=
  spread
    (mkPartialParams None None None None None
       (Some (negb (String.eqb feedName "Posts"))) None None None None)
    (ofCommon (getCommonParams ctx ORD_UPDATED)).

(** [userTimeline(feedName)]: the handler after its middlewares. *)
Definition userTimeline (feedName : string) (ctx : Ctx)
    : Result (Feed SPost SComment SAttachment SUser) :=
  let targetUser := state_targetUser ctx in
  let timeline := getUserNamedFeed db (user_id targetUser) feedName in
  genericTimeline timeline (viewerIdOf ctx) (userTimelineParams feedName ctx).

(** [ownTimeline(feedName, params)]: the handler after [authRequired],
    which leaves the authenticated [user] in [ctx.state]. *)
Definition ownTimeline (feedName : string) (params : PartialParams)
    (user : User) (ctx : Ctx)
    : Result (Feed SPost SComment SAttachment SUser) :=
  let timeline := getUserNamedFeed db (user_id user) feedName in
  genericTimeline timeline (Some (user_id user))
    (spread params (ofCommon (getCommonParams ctx ORD_UPDATED))).

(** [parseInt(ctx.request.query.limit, 10) || DEFAULT_LIMIT] *)
Definition bestOfLimit (ctx : Ctx) : Z :=
  numberOr (parseInt10 (query_limit (query ctx))) 30.

(** [parseInt(ctx.request.query.offset, 10) || 0] *)
Definition bestOfOffset (ctx : Ctx) : Z :=
  numberOr (parseInt10 (query_offset (query ctx))) 0.

(** [dbAdapter.bestPosts(ctx.state.user, offset, limit + 1)] *)
Definition bestOfFound (ctx : Ctx) : list Post :=
  bestPosts db (state_user ctx) (bestOfOffset ctx) (bestOfLimit ctx + 1).

(** [bestOf], up to the serialization: the posts found, cut to the page,
    and [isLastPage]. *)
Definition bestOfPage (ctx : Ctx) : Result (list Post * bool) :=
  let limit := bestOfLimit ctx in
  let foundPosts := bestOfFound ctx in
  let isLastPage := len foundPosts <=? limit in
  match (if negb isLastPage then setLength foundPosts limit
         else inr foundPosts) with
  | inl e => inl e
  | inr foundPosts => inr (foundPosts, isLastPage)
  end.

(** [bestOf]: the body of the response. *)
Definition bestOf (ctx : Ctx) : Result (BestOfBody SCollection) :=
  let currentUserId :=
    match state_user ctx with Some u => Some (user_id u) | None => None end in
  match bestOfPage ctx with
  | inl e => inl e
  | inr (foundPosts, isLastPage) =>
      let postsObjects := initRawPosts db foundPosts currentUserId in
      inr (mkBestOfBody
             (serializePostsCollection ser postsObjects currentUserId)
             isLastPage)
  end.

End Controller.

End Timelines.

(** ** The Comment model *)

Module CommentModel.
Import JS.

(** *** The store and the other collaborators of the model *)

(** A timestamp property of a comment object: a number set by [create], or
    the string the constructor was given. *)
Inductive Stamp : Type :=
| StampNumber (n : Z)
| StampString (s : string).

(** The payload [create] hands to [dbAdapter.createComment]. *)
Record Payload : Type := mkPayload {
  payload_body : string;
  payload_userId : string;
  payload_postId : string;
  payload_createdAt : Stamp;             (* stored through [toString()] *)
  payload_updatedAt : Stamp
}.

Inductive Event : Type :=
| DestroyCommentEvent (commentId : option string) (postId : option string).

(** Modelled from the spec: the store behind [dbAdapter], [Post], [User],
    [Stats] and [pubSub] is not part of the model file.  It holds the
    comment records, the ordered comments of each post, the membership of
    posts in timelines with their bump time, the timelines each post
    appears in, the Comments timeline of each user, the counters of
    comments given and the notifications published. *)
Record World : Type := mkWorld {
  (* comment records by comment id *)
  commentRows : gmap string Payload;
  (* existing posts: post id to the id of its author *)
  postRows : gmap string string;
  (* the ordered comment ids of each post *)
  postComments : gmap string (list string);
  (* membership: timeline id to the posts in it, each with its bump time *)
  timelinePosts : gmap string (gmap string Z);
  (* post usage: post id to the timelines the post is in *)
  postTimelines : gmap string (gset string);
  (* users: user id to the id of the user's Comments timeline *)
  commentsTimelineIds : gmap string string;
  (* stats: user id to the number of comments given *)
  statsComments : gmap string Z;
  (* what was published through pubSub, latest first *)
  published : list Event
}.

Definition setCommentRows (w : World) (x : gmap string Payload) : World :=
  mkWorld x (postRows w) (postComments w) (timelinePosts w) (postTimelines w)
    (commentsTimelineIds w) (statsComments w) (published w).

Definition setPostComments (w : World) (x : gmap string (list string)) : World :=
  mkWorld (commentRows w) (postRows w) x (timelinePosts w) (postTimelines w)
    (commentsTimelineIds w) (statsComments w) (published w).

Definition setTimelinePosts (w : World) (x : gmap string (gmap string Z)) : World :=
  mkWorld (commentRows w) (postRows w) (postComments w) x (postTimelines w)
    (commentsTimelineIds w) (statsComments w) (published w).

Definition setPostTimelines (w : World) (x : gmap string (gset string)) : World :=
  mkWorld (commentRows w) (postRows w) (postComments w) (timelinePosts w) x
    (commentsTimelineIds w) (statsComments w) (published w).

Definition setStatsComments (w : World) (x : gmap string Z) : World :=
  mkWorld (commentRows w) (postRows w) (postComments w) (timelinePosts w)
    (postTimelines w) (commentsTimelineIds w) x (published w).

Definition setPublished (w : World) (x : list Event) : World :=
  mkWorld (commentRows w) (postRows w) (postComments w) (timelinePosts w)
    (postTimelines w) (commentsTimelineIds w) (statsComments w) x.

(** Asynchronous model code: it reads and writes the world and may throw.
    What was written before an exception stays written. *)
Definition M (A : Type) : Type := World -> Result A * World.

Definition ret {A : Type} (a : A) : M A := fun w => (inr a, w).

Definition throw {A : Type} (e : Error) : M A := fun w => (inl e, w).

Definition bind {A B : Type} (m : M A) (k : A -> M B) : M B :=
  fun w =>
    match m w with
    | (inr a, w') => k a w'
    | (inl e, w') => (inl e, w')
    end.

Definition lift {A : Type} (r : Result A) : M A := fun w => (r, w).

Definition gets {A : Type} (f : World -> A) : M A := fun w => (inr (f w), w).

Definition modify (f : World -> World) : M unit := fun w => (inr tt, f w).

Declare Scope model_scope.
Delimit Scope model_scope with model.
Notation "x <- m ;; k" := (bind m (fun x => k))
  (at level 100, m at next level, right associativity) : model_scope.
Notation "m ;;; k" := (bind m (fun _ => k))
  (at level 100, right associativity) : model_scope.
Local Open Scope model_scope.

(** A method call on a value that may be [null]. *)
Definition deref {A : Type} (o : option A) : M A :=
  match o with
  | Some a => ret a
  | None => throw TypeError
  end.

(** Modelled from the spec: [pubSub.destroyComment] is not part of the
    model file.  A change notification is fire-and-forget: the event is
    recorded as published. *)
Definition pubSub_destroyComment (commentId postId : option string) : M unit :=
  modify (fun w => setPublished w (DestroyCommentEvent commentId postId :: published w)).

(** Modelled from the spec: [dbAdapter.createComment] is not part of the
    model file.  It stores the record of the comment under the id the
    store generates for it, [newId], and returns that id. *)
Definition dbAdapter_createComment (newId : string) (payload : Payload) : M string :=
  modify (fun w => setCommentRows w (<[newId := payload]> (commentRows w))) ;;;
  ret newId.

(** Modelled from the spec: [dbAdapter.deleteComment] is not part of the
    model file.  It deletes the record of the comment. *)
Definition dbAdapter_deleteComment (commentId : option string) : M unit :=
  match commentId with
  | Some c => modify (fun w => setCommentRows w (delete c (commentRows w)))
  | None => ret tt
  end.

(** Modelled from the spec: [dbAdapter.removeCommentFromPost] is not part
    of the model file.  It takes the comment out of the ordered sequence
    of comments the post owns. *)
Definition dbAdapter_removeCommentFromPost (postId commentId : option string)
    : M unit :=
  match postId, commentId with
  | Some p, Some c =>
      modify (fun w =>
        setPostComments w (alter (filter (fun x => x <> c)) p (postComments w)))
  | _, _ => ret tt
  end.

(** Modelled from the spec: [dbAdapter.removePostFromTimeline] is not part
    of the model file.  It retracts the membership of the post in the
    timeline, with its bump time; removing a non-member is a no-op. *)
Definition dbAdapter_removePostFromTimeline (timelineId : string)
    (postId : option string) : M unit :=
  match postId with
  | Some p =>
      modify (fun w =>
        setTimelinePosts w (alter (delete p) timelineId (timelinePosts w)))
  | None => ret tt
  end.

(** Modelled from the spec: [dbAdapter.deletePostUsageInTimeline] is not
    part of the model file.  It takes the timeline out of the set of
    timelines the post currently appears in. *)
Definition dbAdapter_deletePostUsageInTimeline (postId : option string)
    (timelineId : string) : M unit :=
  match postId with
  | Some p =>
      modify (fun w =>
        setPostTimelines w
          (alter (fun s => s ∖ {[timelineId]}) p (postTimelines w)))
  | None => ret tt
  end.

(** Modelled from the spec: [Post.findById] is not part of the model file.
    It answers the post, here its id, or [null] when the referenced post
    is absent. *)
Definition Post_findById (postId : option string) : M (option string) :=
  gets (fun w =>
    match postId with
    | Some p => match postRows w !! p with Some _ => Some p | None => None end
    | None => None
    end).

(** Modelled from the spec: [post.getComments] is not part of the model
    file.  It answers the ordered sequence of comments the post owns:
    the stored records of its comment ids. *)
Definition Post_getComments (post : string) : M (list (string * Payload)) :=
  gets (fun w =>
    omap (fun c => (fun r => (c, r)) <$> commentRows w !! c)
         (default [] (postComments w !! post))).

(** Modelled from the spec: [User.findById] and
    [user.getCommentsTimelineId] are not part of the model file.  The
    Comments timeline of a user is provisioned with the user; an unknown
    user is [null]. *)
Definition User_findById (userId : option string) : M (option string) :=
  gets (fun w =>
    match userId with
    | Some u =>
        match commentsTimelineIds w !! u with Some _ => Some u | None => None end
    | None => None
    end).

(** Modelled from the spec: [user.getCommentsTimelineId] is not part of
    the model file.  It answers the id of the Comments timeline of the
    user. *)
Definition User_getCommentsTimelineId (user : string) : M string :=
  t <- gets (fun w => commentsTimelineIds w !! user) ;; deref t.

(** Modelled from the spec: [Stats.findById], [stats.addComment] and
    [stats.removeComment] are not part of the model file.  They increment
    and decrement the counter of comments given by the user, and answer
    its new value. *)
Definition Stats_findById (userId : option string) : M (option string) :=
  gets (fun w =>
    match userId with
    | Some u => match statsComments w !! u with Some _ => Some u | None => None end
    | None => None
    end).

(** Modelled from the spec: the counter update behind [stats.addComment]
    and [stats.removeComment], which are not part of the model file. *)
Definition Stats_incr (d : Z) (stats : string) : M Z :=
  n <- gets (fun w => default 0 (statsComments w !! stats)) ;;
  modify (fun w => setStatsComments w (<[stats := n + d]> (statsComments w))) ;;;
  ret (n + d).

(** Modelled from the spec: [stats.addComment] is not part of the model
    file; it increments the counter. *)
Definition Stats_addComment : string -> M Z := Stats_incr 1.

(** Modelled from the spec: [stats.removeComment] is not part of the model
    file; it decrements the counter. *)
Definition Stats_removeComment : string -> M Z := Stats_incr (-1).

(** *** The comment object *)

Record Comment : Type := mkComment {
  comment_id : option string;
  body_ : string;
  userId : option string;
  postId : option string;
  createdAt : option Stamp;
  updatedAt : option Stamp
}.

Record Params : Type := mkParams {
  params_id : option string;
  params_body : option string;
  params_userId : option string;
  params_postId : option string;
  params_createdAt : option string;
  params_updatedAt : option string
}.

(** The setter of [body]: the value [body_] gets. *)
Definition setBody (newValue : option string) : string :=
  match newValue with
  | Some EmptyString | None => EmptyString
  | Some s => trim s
  end.

(** [if (parseInt(v, 10)) this.x = v] *)
Definition stampOfParam (v : option string) : option Stamp :=
  match parseInt10 v, v with
  | Some n, Some s => if n =? 0 then None else Some (StampString s)
  | _, _ => None
  end.

(** [new Comment(params)] *)
Definition newComment (params : Params) : Comment :=
  mkComment (params_id params) (setBody (params_body params))
    (params_userId params) (params_postId params)
    (stampOfParam (params_createdAt params))
    (stampOfParam (params_updatedAt params)).

(** The getter of [body]. *)
Definition body (this : Comment) : string := body_ this.

(** The value of [valid] in [validate], as its truthiness. *)
Definition valid (this : Comment) : bool :=
  truthy (Some (body this)) && (0 <? strlen (body this))
  && truthy (userId this) && (0 <? strlen (default EmptyString (userId this)))
  && truthy (postId this) && (0 <? strlen (default EmptyString (postId this))).

Definition validate (this : Comment) : Result Comment :=
  if negb (valid this) then inl (ErrorMsg "Invalid") else inr this.

(** Modelled from the spec: [post.addComment] is not part of the model
    file.  On comment create the post gains membership in the commenter's
    Comments timeline, and the membership write updates the bump time of
    the post on that timeline to now, [bump]; the comment joins the
    ordered sequence of comments of the post.  It answers the timelines
    written.  (The re-bump of the RiverOfNews timelines is left out: the
    model does not read them.) *)
Definition Post_addComment (post : string) (commentId : string)
    (commenter : option string) (bump : Z) : M (list string) :=
  user <- User_findById commenter ;;
  user <- deref user ;;
  timelineId <- User_getCommentsTimelineId user ;;
  modify (fun w =>
    setPostComments w
      (<[post := default [] (postComments w !! post) ++ [commentId]]>
         (postComments w))) ;;;
  modify (fun w =>
    setTimelinePosts w
      (<[timelineId := <[post := bump]> (default ∅ (timelinePosts w !! timelineId))]>
         (timelinePosts w))) ;;;
  modify (fun w =>
    setPostTimelines w
      (<[post := {[timelineId]} ∪ default ∅ (postTimelines w !! post)]>
         (postTimelines w))) ;;;
  ret [timelineId].

(** [Comment.prototype.create].  [now1] and [now2] are the two readings of
    the clock and [newId] is the id the store generates; the method
    answers the timelines, and the comment object as it has become. *)
Definition create (now1 now2 : Z) (newId : string) (this : Comment)
    : M (Comment * list string) :=
  let this :=
    mkComment (comment_id this) (body_ this) (userId this) (postId this)
      (Some (StampNumber now1)) (Some (StampNumber now2)) in
  lift (validate this) ;;;
  let payload :=
    mkPayload (body this) (default EmptyString (userId this))
      (default EmptyString (postId this))
      (StampNumber now1) (StampNumber now2) in
  newId <- dbAdapter_createComment newId payload ;;
  let this :=
    mkComment (Some newId) (body_ this) (userId this) (postId this)
      (createdAt this) (updatedAt this) in
  post <- Post_findById (postId this) ;;
  post <- deref post ;;
  timelines <- Post_addComment post newId (userId this) now2 ;;
  stats <- Stats_findById (userId this) ;;
  stats <- deref stats ;;
  Stats_addComment stats ;;;
  ret (this, timelines).

(** What [destroy] answers: [true], or the answer of
    [stats.removeComment()]. *)
Inductive Destroyed : Type :=
| AnsweredTrue
| AnsweredStats (res : Z).

(** [_.any(comments, 'userId', userId)] *)
Definition anyByUser (comments : list (string * Payload)) (user : option string)
    : bool :=
  existsb (fun c => bool_decide (Some (payload_userId (snd c)) = user)) comments.

(** [Comment.prototype.destroy] *)
Definition destroy (this : Comment) : M Destroyed :=
  pubSub_destroyComment (comment_id this) (postId this) ;;;
  dbAdapter_deleteComment (comment_id this) ;;;
  dbAdapter_removeCommentFromPost (postId this) (comment_id this) ;;;
  (* look for comment from this user in this post
     if this is was the last one remove this post from user's comments timeline *)
  post <- Post_findById (postId this) ;;
  post <- deref post ;;
  comments <- Post_getComments post ;;
  if anyByUser comments (userId this) then ret AnsweredTrue
  else
    user <- User_findById (userId this) ;;
    user <- deref user ;;
    timelineId <- User_getCommentsTimelineId user ;;
    dbAdapter_removePostFromTimeline timelineId (postId this) ;;;
    dbAdapter_deletePostUsageInTimeline (postId this) timelineId ;;;
    stats <- Stats_findById (userId this) ;;
    stats <- deref stats ;;
    res <- Stats_removeComment stats ;;
    ret (AnsweredStats res).

(** *** Vocabulary of the properties *)

(** The bump time of the post in the Comments timeline of the user, when
    the post is in that timeline. *)
Definition commentsMembership (w : World) (user post : string) : option Z :=
  timelineId ← commentsTimelineIds w !! user;
  members ← timelinePosts w !! timelineId;
  members !! post.

(** The post is in the Comments timeline of the user. *)
Definition inCommentsTimeline (w : World) (user post : string) : bool :=
  bool_decide (is_Some (commentsMembership w user post)).

(** The user has a comment on the post other than [commentId]. *)
Definition hasOtherComment (w : World) (user post commentId : string) : Prop :=
  exists c row,
    c <> commentId
    /\ c ∈ default [] (postComments w !! post)
    /\ commentRows w !! c = Some row
    /\ payload_userId row = user.

(** The round trip law as the specification words it: a comment of the
    user on the post is created and then destroyed, and the membership of
    the post in the Comments timeline of the user is back to what it was
    before the comment if and only if the user has no other comment
    remaining on the post. *)
Definition roundTripLaw (w0 : World) (now1 now2 : Z) (newId : string)
    (this : Comment) (user post : string) : Prop :=
  forall this' timelines w1 r w2,
    create now1 now2 newId this w0 = (inr (this', timelines), w1) ->
    destroy this' w1 = (inr r, w2) ->
    (inCommentsTimeline w2 user post = inCommentsTimeline w0 user post
     <-> ~ hasOtherComment w1 user post newId).

End CommentModel.

(** ** Example data *)

Module Examples.
Import JS Timelines.

Definition noDates (s : string) : option Z := None.


Definition exampleUser : User := mkUser "mars" "user" "0" "0" [].

Definition exampleCtx (q : Query) : Ctx := mkCtx q None exampleUser.

(** Three users: Luna is private, Zeus is protected, Mars is public. *)
Definition luna : User := mkUser "luna" "user" "1" "1" [].
Definition zeus : User := mkUser "zeus" "user" "0" "1" [].
Definition mars : User := mkUser "mars" "user" "0" "0" [].

Definition findUser (userId : string) : User :=
  if String.eqb userId "luna" then luna
  else if String.eqb userId "zeus" then zeus
  else mars.

Definition feedIntId (userId name : string) : Z :=
  (if String.eqb userId "luna" then 10
   else if String.eqb userId "zeus" then 20 else 30)
  + (if String.eqb name "Posts" then 1
     else if String.eqb name "Comments" then 2
     else if String.eqb name "Likes" then 3
     else if String.eqb name "Hides" then 4 else 5).

Definition feedOf (userId name : string) : Timeline :=
  mkTimeline (userId +:+ "/" +:+ name) (feedIntId userId name) name userId.

(** The posts stored in the timelines read: Luna's Posts hold one post,
    Mars's Posts hold three. *)
Definition storedPosts (timelineIds : list Z) : list string :=
  if includesZ 11 timelineIds then ["hello"]
  else if includesZ 31 timelineIds then ["m3"; "m2"; "m1"]
  else [].

Definition page {A : Type} (offset limit : Z) (rows : list A) : list A :=
  take (Z.to_nat limit) (drop (Z.to_nat offset) rows).

(** Zeus subscribes to Luna; Zeus banned Mars and Luna banned Zeus. *)
Definition exampleDb : DbAdapter unit :=
  mkDbAdapter unit
    [("zeus", "mars"); ("luna", "zeus")]
    feedOf
    (fun timeline => findUser (userId timeline))
    (fun owner => feedIntId (user_id owner) "Comments")
    (fun owner => feedIntId (user_id owner) "Likes")
    (fun owner => if String.eqb owner "luna" then ["zeus"] else [])
    (fun _ => ([], []))
    (fun _ => [])
    (fun _ timelineIds _ q =>
       page (offset (pq_params q)) (limit (pq_params q)) (storedPosts timelineIds))
    (fun postId _ _ =>
       Some (mkPostWithStuff (mkPost postId "mars" [31])
               [mkDestination "mars/Posts" "Posts" "mars"] [] [] [] 0 0))
    (fun _ => [])
    (fun _ _ => [])
    (fun ids => (fun i => (i, findUser i)) <$> ids)
    (fun ids => (fun i => (i, tt)) <$> ids)
    (fun _ offset limit =>
       page offset limit [mkPost "m3" "mars" [31]; mkPost "m2" "mars" [31];
                          mkPost "m1" "mars" [31]])
    (fun found _ => found).

Definition exampleSer
    : Serializers Post Comment Attachment string (list Post) unit :=
  mkSerializers Post Comment Attachment string (list Post) unit
    (fun post => post) post_userId Some Some
    (fun _ _ _ userId => userId) (fun _ => "user") (fun userId => userId)
    (fun found _ => found).

Definition exampleConfig : Config := mkConfig true.

Definition noQuery : Query := mkQuery None None None None None None None.

Definition limitQuery (l : string) : Query :=
  mkQuery (Some l) None None None None None None.

Definition offsetQuery (o : string) : Query :=
  mkQuery None (Some o) None None None None None.

Definition modeQuery (m : string) : Query :=
  mkQuery None None None None (Some m) None None.


Definition myPostsQuery (flag : string) : Query :=
  mkQuery None None None (Some flag) None None None.

End Examples.

Module CommentExamples.
Import JS CommentModel.

(** Mars wrote the post p1; Luna has not commented on it. *)
Definition freshWorld : World :=
  mkWorld ∅ {["p1" := "mars"]} ∅ ∅ ∅
    {["luna" := "luna/Comments"; "mars" := "mars/Comments"]}
    {["luna" := 0; "mars" := 0]} [].

(** Luna has one comment, c1, on the post p1, which is therefore in her
    Comments timeline. *)
Definition commentedWorld : World :=
  mkWorld
    {["c1" := mkPayload "first" "luna" "p1" (StampNumber 1) (StampNumber 1)]}
    {["p1" := "mars"]}
    {["p1" := ["c1"]]}
    {["luna/Comments" := {["p1" := 1]}]}
    {["p1" := {["luna/Comments"]}]}
    {["luna" := "luna/Comments"; "mars" := "mars/Comments"]}
    {["luna" := 1; "mars" := 0]} [].

Definition lunaComment (text : string) : Comment :=
  newComment (mkParams None (Some text) (Some "luna") (Some "p1") None None).

End CommentExamples.

(** ** The rest of the timelines controller *)

(** [querystring.escape] and lodash's [_.escape], which [metatags] calls. *)
Module Escapes.
Import JS.

(** The double quote character. *)
Definition dquote : ascii := "034"%char.

(** [s] between double quotes. *)
Definition quoted (s : string) : string :=
  String dquote (s +:+ String dquote EmptyString).

(** The upper case hexadecimal digit of a number below 16. *)
Definition hexDigit (n : nat) : ascii :=
  nth n ["0"; "1"; "2"; "3"; "4"; "5"; "6"; "7"; "8"; "9";
         "A"; "B"; "C"; "D"; "E"; "F"]%char "0"%char.

(** [%XX] for a byte. *)
Definition percentByte (n : nat) : string :=
  String "%" (String (hexDigit (n / 16)) (String (hexDigit (n mod 16)) EmptyString)).

(** The characters [querystring.escape] leaves as they are: letters,
    digits and [! ' ( ) * - . _ ~]. *)
Definition unreserved (c : ascii) : bool :=
  let n := nat_of_ascii c in
  ((65 <=? n)%nat && (n <=? 90)%nat) || ((97 <=? n)%nat && (n <=? 122)%nat)
  || ((48 <=? n)%nat && (n <=? 57)%nat)
  || (n =? 33)%nat || ((39 <=? n)%nat && (n <=? 42)%nat)
  || (n =? 45)%nat || (n =? 46)%nat || (n =? 95)%nat || (n =? 126)%nat.

(** One code unit of [querystring.escape]: below 128 it is one byte, from
    128 on (and below 256, as a [string] holds them here) the two bytes of
    its UTF-8 encoding. *)
Definition escapeUnit (c : ascii) : string :=
  let n := nat_of_ascii c in
  if unreserved c then String c EmptyString
  else if (n <? 128)%nat then percentByte n
  else percentByte (192 + n / 64) +:+ percentByte (128 + n mod 64).

(** [querystring.escape], imported as [urlEscape]. *)
Fixpoint urlEscape (s : string) : string :=
  match s with
  | String c r => escapeUnit c +:+ urlEscape r
  | EmptyString => EmptyString
  end.

(** The characters of a percent-encoded string. *)
Definition urlSafe (c : ascii) : bool := unreserved c || Ascii.eqb c "%".

(** The entity lodash writes for a character, when it has one. *)
Definition htmlEscapes (c : ascii) : option string :=
  if Ascii.eqb c "&" then Some "&amp;"
  else if Ascii.eqb c "<" then Some "&lt;"
  else if Ascii.eqb c ">" then Some "&gt;"
  else if Ascii.eqb c dquote then Some "&quot;"
  else if Ascii.eqb c "'" then Some "&#39;"
  else None.

(** [_.escape] *)
Fixpoint escape (s : string) : string :=
  match s with
  | String c r =>
      match htmlEscapes c with
      | Some entity => entity +:+ escape r
      | None => String c (escape r)
      end
  | EmptyString => EmptyString
  end.

(** The number of occurrences of a character in a string. *)
Fixpoint countChar (x : ascii) (s : string) : nat :=
  match s with
  | String c r => (if Ascii.eqb c x then 1 else 0) + countChar x r
  | EmptyString => 0
  end.

(** No character of the string is an ASCII capital letter. *)
Definition noCapital (s : string) : Prop :=
  Forall (fun c => toLowerChar c = c) (list_ascii_of_string s).

End Escapes.

Module Metatags.
Import JS Timelines Escapes.

(** Name for data dog. *)
Definition monitoredFeedName (feedName : string) : string :=
  if String.eqb feedName "RiverOfNews" then "home"
  else if String.eqb feedName "MyDiscussions" then "my-discussions"
  else toLowerCase feedName.

(** The feed owner [metatags] looks up: the properties it reads. *)
Record FeedOwner : Type := mkFeedOwner {
  username : string;
  isActive : bool;
  isUser : bool                            (* [targetUser.isUser()] *)
}.

(** The title of the RSS link. *)
Definition rssTitle (targetUser : FeedOwner) : string :=
  if isUser targetUser then "Posts of " +:+ username targetUser
  else "Posts in group " +:+ username targetUser.

(** The address of the RSS feed; [host] is [config.host]. *)
Definition rssURL (host : string) (targetUser : FeedOwner) : string :=
  host +:+ "/v2/timelines-rss/" +:+ urlEscape (username targetUser).

(** The link element [metatags] answers with. *)
Definition rssLink (title url : string) : string :=
  "<link rel=" +:+ quoted "alternate"
  +:+ " type=" +:+ quoted "application/rss+xml"
  +:+ " title=" +:+ quoted (escape title)
  +:+ " href=" +:+ quoted (escape url)
  +:+ " data-react-helmet=" +:+ quoted "true" +:+ ">".

(** [metatags]: the body of the response for [ctx.params.username].
    [getFeedOwnerByUsername] is the query of [dbAdapter]. *)
Definition metatags (host : string)
    (getFeedOwnerByUsername : string -> option FeedOwner)
    (usernameParam : string) : string :=
  match getFeedOwnerByUsername usernameParam with
  | None => EmptyString
  | Some targetUser =>
      if negb (isActive targetUser) then EmptyString
      else rssLink (rssTitle targetUser) (rssURL host targetUser)
  end.

End Metatags.

Module MoreExamples.
Import JS Timelines Escapes Metatags Examples.

(** An owner whose name is written to break out of an attribute. *)
Definition trickyOwner : FeedOwner :=
  mkFeedOwner (quoted "><script>" +:+ " &co") true false.

Definition lookupOwner (name : string) : option FeedOwner :=
  if String.eqb name "tricky" then Some trickyOwner
  else if String.eqb name "gone" then Some (mkFeedOwner "gone" false true)
  else if String.eqb name "luna" then Some (mkFeedOwner "luna" true true)
  else None.

Definition sortQuery (s : string) : Query :=
  mkQuery None None (Some s) None None None None.

(** The route of the home feed: [{ withLocalBumps: true }]. *)
Definition homeRoute : PartialParams :=
  mkPartialParams None None None None (Some true) None None None None None.

(** A database in which Mars follows two feeds and has Luna for a friend. *)
Definition homeDb : DbAdapter unit :=
  mkDbAdapter unit
    (bans exampleDb) (getUserNamedFeed exampleDb) (getUser exampleDb)
    (getCommentsTimelineIntId exampleDb) (getLikesTimelineIntId exampleDb)
    (getUserSubscribersIds exampleDb)
    (fun _ => ([11; 21], [12; 13]))
    (fun _ => ["luna"])
    (getTimelinePostsIds exampleDb) (getPostWithStuff exampleDb)
    (fun _ => ["zeus"; "luna"; "zeus"])
    (getGroupsAdministratorsIds exampleDb)
    (getUsersByIdsAssoc exampleDb) (getUsersStatsAssoc exampleDb)
    (bestPosts exampleDb) (initRawPosts exampleDb).

End MoreExamples.

Module MoreCommentExamples.
Import JS CommentModel CommentExamples.

(** A comment of Luna on a post that does not exist. *)
Definition strayComment : Comment :=
  newComment (mkParams None (Some "hello") (Some "luna") (Some "p9") None None).

(** The comment c1 of Luna on p1, as an object. *)
Definition firstComment : Comment :=
  mkComment (Some "c1") "first" (Some "luna") (Some "p1")
    (Some (StampNumber 1)) (Some (StampNumber 1)).

(** The world of [commentedWorld] after the post p1 is gone. *)
Definition orphanWorld : World :=
  mkWorld (commentRows commentedWorld) ∅ (postComments commentedWorld)
    (timelinePosts commentedWorld) (postTimelines commentedWorld)
    (commentsTimelineIds commentedWorld) (statsComments commentedWorld) [].

End MoreCommentExamples.

(** * Properties *)

(** ** JavaScript built-ins *)

Module JSFacts.
Import JS.

Lemma includes_true (x : string) (arr : list string) :
  includes x arr = true <-> x ∈ arr.
Proof.
  unfold includes. rewrite existsb_exists. split.
  - intros (y & Hy & Heq). apply String.eqb_eq in Heq. subst y.
    by apply list_elem_of_In.
  - intros Hx. exists x. split; [by apply list_elem_of_In | apply String.eqb_refl].
Qed.

Lemma includes_false (x : string) (arr : list string) :
  includes x arr = false <-> x ∉ arr.
Proof.
  rewrite <- includes_true. destruct (includes x arr); split; congruence.
Qed.

Lemma setLength_page {A : Type} (arr : list A) (n : Z) :
  0 <= n -> setLength arr n = inr (take (Z.to_nat n) arr).
Proof.
  intros Hn. unfold setLength.
  destruct (n <? 0) eqn:Hneg; [apply Z.ltb_lt in Hneg; lia | reflexivity].
Qed.

Lemma setLength_negative {A : Type} (arr : list A) (n : Z) :
  n < 0 -> setLength arr n = inl RangeError.
Proof.
  intros Hn. unfold setLength. by apply Z.ltb_lt in Hn as ->.
Qed.

Lemma len_take {A : Type} (arr : list A) (n : Z) :
  0 <= n -> len (take (Z.to_nat n) arr) = Z.min n (len arr).
Proof.
  intros Hn. unfold len. rewrite length_take. lia.
Qed.

Lemma trimStart_blank (s : string) : blank s -> trimStart s = EmptyString.
Proof.
  unfold blank. induction s as [|c r IH]; simpl; [done|].
  intros Hall. apply Forall_cons in Hall as [-> Hr]. by apply IH.
Qed.

Lemma trim_blank (s : string) : blank s -> trim s = EmptyString.
Proof.
  intros Hs. unfold trim. by rewrite trimStart_blank.
Qed.

Example trim_example : trim "  a b  " = "a b".
Proof. reflexivity. Qed.

Example parseInt10_examples :
  parseInt10 (Some "50") = Some 50
  /\ parseInt10 (Some "  -12px") = Some (-12)
  /\ parseInt10 (Some "+7.9") = Some 7
  /\ parseInt10 (Some "abc") = None
  /\ parseInt10 (Some "") = None
  /\ parseInt10 None = None.
Proof. repeat split. Qed.

End JSFacts.

(** ** Request parameters *)

Module ParamsFacts.
Import JS Timelines JSFacts Examples.

Section Facts.
Context (dateParse : string -> option Z).

Lemma spread_common_limit (route : PartialParams) (c : CommonParams)
    (timeline : Timeline) (viewerId : option string) :
  limit (effectiveParams timeline viewerId (spread route (ofCommon c)))
  = cp_limit c.
Proof. reflexivity. Qed.

Lemma getCommonParams_limit_range (ctx : Ctx) (defaultSort : string) :
  0 <= cp_limit (getCommonParams dateParse ctx defaultSort) <= 120.
Proof.
  unfold getCommonParams; simpl.
  destruct (parseInt10 (query_limit (query ctx))) as [l|]; [|lia].
  destruct (l <? 0) eqn:Hneg; simpl; [lia|].
  destruct (l >? 120) eqn:Hbig; [lia|].
  apply Z.ltb_ge in Hneg. rewrite Z.gtb_ltb in Hbig.
  apply Z.ltb_ge in Hbig. lia.
Qed.

(** C7.  The effective limit lies in [0,120] and the effective offset is
    not negative.  A [limit] that [parseInt] does not read as a number,
    that is negative or that exceeds 120 gives 30; an [offset] that is not
    read as a number or is negative gives 0; an absent value gives the
    default; otherwise the number read is used unchanged.  The values
    are the ones [genericTimeline] works with, whatever the route adds. *)
Theorem getCommonParams_limit_offset (ctx : Ctx) (defaultSort : string) :
  let p := getCommonParams dateParse ctx defaultSort in
  let l := parseInt10 (query_limit (query ctx)) in
  let o := parseInt10 (query_offset (query ctx)) in
  0 <= cp_limit p <= 120
  /\ 0 <= cp_offset p
  /\ (l = None \/ (exists n, l = Some n /\ (n < 0 \/ 120 < n)) -> cp_limit p = 30)
  /\ (forall n, l = Some n -> 0 <= n <= 120 -> cp_limit p = n)
  /\ (o = None \/ (exists n, o = Some n /\ n < 0) -> cp_offset p = 0)
  /\ (forall n, o = Some n -> 0 <= n -> cp_offset p = n)
  /\ (query_limit (query ctx) = None -> cp_limit p = 30)
  /\ (query_offset (query ctx) = None -> cp_offset p = 0)
  /\ (forall timeline viewerId route,
        let params :=
          effectiveParams timeline viewerId (spread route (ofCommon p)) in
        limit params = cp_limit p /\ offset params = cp_offset p).
Proof.
  intros p l o. split; [apply getCommonParams_limit_range|].
  subst p l o. unfold getCommonParams; simpl.
  destruct (parseInt10 (query_limit (query ctx))) as [l|] eqn:Hl;
    destruct (parseInt10 (query_offset (query ctx))) as [o|] eqn:Ho;
    repeat match goal with
      | |- context [?a <? ?b] =>
          let H := fresh in destruct (Z.ltb_spec a b) as [H|H]; simpl
      | |- context [?a >? ?b] =>
          let H := fresh in rewrite (Z.gtb_ltb a b);
          destruct (Z.ltb_spec b a) as [H|H]; simpl
      end;
    repeat split; intros;
    repeat match goal with
      | H : _ \/ _ |- _ => destruct H
      | H : exists _, _ |- _ => destruct H
      | H : _ /\ _ |- _ => destruct H
      | H : Some _ = Some _ |- _ => injection H as H
      | H : query_limit _ = None |- _ => rewrite H in Hl; simpl in Hl
      | H : query_offset _ = None |- _ => rewrite H in Ho; simpl in Ho
      end;
    try discriminate; try lia.
Qed.

End Facts.

Example getCommonParams_examples :
  let ask l o m :=
    getCommonParams noDates
      (exampleCtx (mkQuery l o None None m (Some "yesterday") None)) "bumped" in
  cp_limit (ask (Some "50") None None) = 50
  /\ cp_limit (ask (Some "121") None None) = 30
  /\ cp_limit (ask (Some "-1") None None) = 30
  /\ cp_limit (ask (Some "0") None None) = 0
  /\ cp_limit (ask (Some "many") None None) = 30
  /\ cp_offset (ask None (Some "60") None) = 60
  /\ cp_offset (ask None (Some "-60") None) = 0
  /\ cp_homefeedMode (ask None None (Some "friends-only")) = "friends-only"
  /\ cp_homefeedMode (ask None None (Some "everything")) = "classic"
  /\ cp_createdBefore (ask None None None) = None.
Proof. repeat split. Qed.

Lemma getCommonParams_limit_offset_witness :
  cp_limit (getCommonParams noDates (exampleCtx (limitQuery "500")) "bumped") = 30
  /\ cp_limit (getCommonParams noDates (exampleCtx (limitQuery "120")) "bumped") = 120
  /\ cp_offset (getCommonParams noDates (exampleCtx (offsetQuery "-4")) "bumped") = 0
  /\ cp_offset (getCommonParams noDates (exampleCtx (offsetQuery "90")) "bumped") = 90.
Proof.
  split; [|split; [|split]].
  - destruct (getCommonParams_limit_offset noDates
                (exampleCtx (limitQuery "500")) "bumped")
      as (_ & _ & Hdefault & _).
    apply Hdefault. right. exists 500. split; [reflexivity | lia].
  - destruct (getCommonParams_limit_offset noDates
                (exampleCtx (limitQuery "120")) "bumped")
      as (_ & _ & _ & Hkept & _).
    apply Hkept; [reflexivity | lia].
  - destruct (getCommonParams_limit_offset noDates
                (exampleCtx (offsetQuery "-4")) "bumped")
      as (_ & _ & _ & _ & Hdefault & _).
    apply Hdefault. right. exists (-4). split; [reflexivity | lia].
  - destruct (getCommonParams_limit_offset noDates
                (exampleCtx (offsetQuery "90")) "bumped")
      as (_ & _ & _ & _ & _ & Hkept & _).
    apply Hkept; [reflexivity | lia].
Defined.

End ParamsFacts.

(** ** Reading a feed *)

Module TimelineFacts.
Import JS Timelines JSFacts.

Section Facts.
Context {SPost SComment SAttachment SUser SCollection StatsRow : Type}.
Context (ser : Serializers SPost SComment SAttachment SUser SCollection StatsRow).
Context (db : DbAdapter StatsRow).
Context (config : Config).
Context (dateParse : string -> option Z).

(** The ban query answers the users in a ban relation with the viewer. *)
Lemma getUsersBansOrWasBannedBy_spec (viewerId other : string) :
  other ∈ getUsersBansOrWasBannedBy db viewerId
  <-> banRelation db viewerId other.
Proof.
  unfold getUsersBansOrWasBannedBy, banRelation.
  rewrite elem_of_app, !list_elem_of_fmap. split.
  - intros [([a b] & -> & Hin) | ([a b] & -> & Hin)];
      apply list_elem_of_filter in Hin as [Heq Hin]; simpl in *; subst;
      [by left | by right].
  - intros [Hin | Hin]; [left | right].
    + exists (viewerId, other). split; [done|].
      by apply list_elem_of_filter.
    + exists (other, viewerId). split; [done|].
      by apply list_elem_of_filter.
Qed.

Lemma banRelation_sym (a b : string) :
  banRelation db a b <-> banRelation db b a.
Proof. unfold banRelation. tauto. Qed.

(** A viewer in a ban relation with the owner is refused, whether the
    owner is private or not and whether the viewer subscribes or not. *)
Lemma checkAccess_banned (viewerId : string) (owner : User) :
  viewerId <> EmptyString ->
  viewerId <> user_id owner ->
  banRelation db viewerId (user_id owner) ->
  checkAccess db (Some viewerId) owner = false.
Proof.
  intros Hid Hother Hban. unfold checkAccess.
  destruct viewerId as [|c r]; [done|].
  apply String.eqb_neq in Hother. rewrite Hother. simpl negb. cbv iota.
  apply getUsersBansOrWasBannedBy_spec, includes_true in Hban.
  rewrite Hban.
  by destruct (if String.eqb (isPrivate owner) "1" then _ else true).
Qed.

Lemma checkAccess_anonymous (owner : User) :
  checkAccess db None owner = String.eqb (isProtected owner) "0".
Proof. reflexivity. Qed.

Lemma checkedFeeds_not_MyDiscussions (name : string) :
  includes name checkedFeeds = true ->
  String.eqb name "MyDiscussions" = false.
Proof.
  intros Hin. apply includes_true in Hin. apply String.eqb_neq.
  intros ->. unfold checkedFeeds in Hin.
  repeat (apply elem_of_cons in Hin as [Hin | Hin]; [discriminate|]).
  by apply elem_of_nil in Hin.
Qed.

(** The sources of a Posts, Comments or Likes feed: the feed itself,
    under the access check. *)
Lemma resolveSources_checked (timeline : Timeline) (viewerId : option string)
    (params : Params) :
  includes (timeline_name timeline) checkedFeeds = true ->
  resolveSources db config timeline viewerId params
  = mkSources [intId timeline] []
      (if withMyPosts params then [viewerId] else [])
      (checkAccess db viewerId (getUser db timeline)).
Proof.
  intros Hin. unfold resolveSources.
  by rewrite (checkedFeeds_not_MyDiscussions _ Hin), Hin.
Qed.

(** What [genericTimeline] answers when the limit is not negative: the
    page is the first [limit] ids fetched. *)
Lemma genericTimeline_page (timeline : Timeline) (viewerId : option string)
    (pp : PartialParams) :
  let params := effectiveParams timeline viewerId pp in
  let src := resolveSources db config timeline viewerId params in
  let fetched := fetchPostsIds db timeline viewerId params src in
  0 <= limit params ->
  exists feed,
    genericTimeline ser db config timeline viewerId pp = inr feed
    /\ tj_posts (timelines feed) = take (Z.to_nat (limit params)) fetched
    /\ isLastPage feed = (len fetched <=? limit params)
    /\ tj_id (timelines feed) = timeline_id timeline
    /\ tj_name (timelines feed) = timeline_name timeline
    /\ tj_user (timelines feed) = userId timeline
    /\ posts feed
       = (postJson ser (viewerHidesFeedId db viewerId)
            <$> getPostsWithStuffByIds db (tj_posts (timelines feed))
                  viewerId params).
Proof.
  intros params src fetched Hlimit.
  unfold genericTimeline. cbv zeta. fold params. fold src. fold fetched.
  destruct (len fetched <=? limit params) eqn:Hlast; cbn [negb].
  - apply Z.leb_le in Hlast. unfold len in Hlast.
    rewrite (take_ge fetched) by lia.
    eexists. split; [reflexivity|]. by cbn.
  - rewrite setLength_page by done.
    eexists. split; [reflexivity|]. by cbn.
Qed.

Lemma userTimeline_limit (feedName : string) (ctx : Ctx)
    (timeline : Timeline) (viewerId : option string) :
  0 <= limit (effectiveParams timeline viewerId
                (userTimelineParams dateParse feedName ctx)) <= 120.
Proof.
  apply (ParamsFacts.getCommonParams_limit_range dateParse ctx ORD_UPDATED).
Qed.

(** A refused read of another user's feed: no posts, and the identity of
    the timeline. *)
Lemma userTimeline_refused (feedName : string) (ctx : Ctx) :
  let timeline :=
    getUserNamedFeed db (user_id (state_targetUser ctx)) feedName in
  includes (timeline_name timeline) checkedFeeds = true ->
  checkAccess db (viewerIdOf ctx) (getUser db timeline) = false ->
  exists feed,
    userTimeline ser db config dateParse feedName ctx = inr feed
    /\ posts feed = []
    /\ tj_posts (timelines feed) = []
    /\ isLastPage feed = true
    /\ tj_id (timelines feed) = timeline_id timeline
    /\ tj_name (timelines feed) = timeline_name timeline
    /\ tj_user (timelines feed) = userId timeline.
Proof.
  intros timeline Hname Hrefused. unfold userTimeline. cbv zeta.
  fold timeline.
  destruct (genericTimeline_page timeline (viewerIdOf ctx)
              (userTimelineParams dateParse feedName ctx))
    as (feed & Hfeed & Hposts & Hlast & Hid & Hn & Hu & Hjson).
  { apply userTimeline_limit. }
  rewrite resolveSources_checked in Hposts, Hlast by done.
  unfold fetchPostsIds in Hposts, Hlast. cbn [canViewUser] in Hposts, Hlast.
  rewrite Hrefused in Hposts, Hlast. rewrite take_nil in Hposts.
  exists feed. repeat split; try done.
  - by rewrite Hjson, Hposts.
  - rewrite Hlast. apply Z.leb_le. unfold len; simpl.
    apply (userTimeline_limit feedName ctx timeline (viewerIdOf ctx)).
Qed.

(** Every request to [userTimeline] and to [ownTimeline] is answered. *)
Lemma userTimeline_answers (feedName : string) (ctx : Ctx) :
  exists feed, userTimeline ser db config dateParse feedName ctx = inr feed.
Proof.
  destruct (genericTimeline_page
              (getUserNamedFeed db (user_id (state_targetUser ctx)) feedName)
              (viewerIdOf ctx) (userTimelineParams dateParse feedName ctx))
    as (feed & Hfeed & _); [apply userTimeline_limit|].
  by exists feed.
Qed.

Lemma ownTimeline_answers (feedName : string) (route : PartialParams)
    (user : User) (ctx : Ctx) :
  exists feed,
    ownTimeline ser db config dateParse feedName route user ctx = inr feed.
Proof.
  destruct (genericTimeline_page
              (getUserNamedFeed db (user_id user) feedName)
              (Some (user_id user))
              (spread route (ofCommon (getCommonParams dateParse ctx ORD_UPDATED))))
    as (feed & Hfeed & _).
  { apply (ParamsFacts.getCommonParams_limit_range dateParse ctx ORD_UPDATED). }
  by exists feed.
Qed.


(** C9.  A [homefeed-mode] value that is none of the three modes, or that
    is absent, gives 'classic'; one of the three modes is used as it is.
    The effective mode is always one of the three, and the request is
    answered whatever the value is. *)
Theorem getCommonParams_homefeedMode (ctx : Ctx) (defaultSort : string) :
  let p := getCommonParams dateParse ctx defaultSort in
  let mode := query_homefeed_mode (query ctx) in
  (mode = None \/ (exists m, mode = Some m /\ m ∉ homefeedModes)
     -> cp_homefeedMode p = "classic")
  /\ (forall m, mode = Some m -> m ∈ homefeedModes -> cp_homefeedMode p = m)
  /\ cp_homefeedMode p ∈ homefeedModes
  /\ (forall timeline viewerId route,
        homefeedMode
          (effectiveParams timeline viewerId (spread route (ofCommon p)))
        = cp_homefeedMode p)
  /\ (forall feedName,
        exists feed,
          userTimeline ser db config dateParse feedName ctx = inr feed)
  /\ (forall feedName route user,
        exists feed,
          ownTimeline ser db config dateParse feedName route user ctx
          = inr feed).
Proof.
  intros p mode. subst p mode. unfold getCommonParams.
  cbv beta iota zeta delta [cp_homefeedMode]. fold homefeedModes.
  assert (Hclassic : HOMEFEED_MODE_CLASSIC ∈ homefeedModes)
    by (unfold homefeedModes; set_solver).
  split; [|split; [|split; [|split; [|split]]]].
  - intros [-> | (m & -> & Hnot)]; [done|].
    apply includes_false in Hnot. by rewrite Hnot.
  - intros m -> Hin. apply includes_true in Hin. by rewrite Hin.
  - destruct (query_homefeed_mode (query ctx)) as [m|]; [|done].
    destruct (includes m homefeedModes) eqn:Hm; [|done].
    by apply includes_true.
  - reflexivity.
  - intros feedName. apply userTimeline_answers.
  - intros feedName route user. apply ownTimeline_answers.
Qed.

(** C1.  A read of a Posts, Comments or Likes feed that fails the access
    check raises no error: it answers a feed with no posts, an empty
    [timelines.posts], and [timelines.id], [timelines.name] and
    [timelines.user] of the requested timeline. *)
Theorem refused_read_keeps_identity (feedName : string) (ctx : Ctx) :
  let timeline :=
    getUserNamedFeed db (user_id (state_targetUser ctx)) feedName in
  let params :=
    effectiveParams timeline (viewerIdOf ctx)
      (userTimelineParams dateParse feedName ctx) in
  includes (timeline_name timeline) checkedFeeds = true ->
  canViewUser (resolveSources db config timeline (viewerIdOf ctx) params)
  = false ->
  exists feed,
    userTimeline ser db config dateParse feedName ctx = inr feed
    /\ posts feed = []
    /\ tj_posts (timelines feed) = []
    /\ tj_id (timelines feed) = timeline_id timeline
    /\ tj_name (timelines feed) = timeline_name timeline
    /\ tj_user (timelines feed) = userId timeline.
Proof.
  intros timeline params Hname Hrefused.
  rewrite resolveSources_checked in Hrefused by done.
  destruct (userTimeline_refused feedName ctx Hname Hrefused)
    as (feed & ? & ? & ? & ? & ? & ? & ?).
  by exists feed.
Qed.

(** C2.  When the viewer and the owner of a Posts, Comments or Likes feed
    are in a ban relation, whichever of the two banned the other, the
    read answers no posts.  Nothing is assumed of the subscriptions, and
    the roles of the two users are arbitrary, so the same holds with the
    owner reading the viewer's feeds. *)
Theorem ban_relation_hides_feeds (feedName : string) (ctx : Ctx)
    (viewer : User) :
  let timeline :=
    getUserNamedFeed db (user_id (state_targetUser ctx)) feedName in
  let owner := getUser db timeline in
  state_user ctx = Some viewer ->
  includes (timeline_name timeline) checkedFeeds = true ->
  user_id viewer <> EmptyString ->
  user_id viewer <> user_id owner ->
  (user_id viewer, user_id owner) ∈ bans db
  \/ (user_id owner, user_id viewer) ∈ bans db ->
  exists feed,
    userTimeline ser db config dateParse feedName ctx = inr feed
    /\ posts feed = []
    /\ tj_posts (timelines feed) = [].
Proof.
  intros timeline owner Hviewer Hname Hid Hother Hban.
  assert (Hrefused : checkAccess db (viewerIdOf ctx) owner = false).
  { unfold viewerIdOf. rewrite Hviewer. by apply checkAccess_banned. }
  destruct (userTimeline_refused feedName ctx Hname Hrefused)
    as (feed & ? & ? & ? & _).
  by exists feed.
Qed.

(** C6.  For a viewer who is not authenticated the access check is true
    exactly when the owner is not protected; the read of a Posts,
    Comments or Likes feed of a protected owner fails the check and
    answers no posts. *)
Theorem anonymous_read_of_protected (feedName : string) (ctx : Ctx) :
  let timeline :=
    getUserNamedFeed db (user_id (state_targetUser ctx)) feedName in
  let owner := getUser db timeline in
  state_user ctx = None ->
  includes (timeline_name timeline) checkedFeeds = true ->
  (checkAccess db (viewerIdOf ctx) owner = true <-> isProtected owner = "0")
  /\ (isProtected owner = "1" ->
      checkAccess db (viewerIdOf ctx) owner = false
      /\ exists feed,
           userTimeline ser db config dateParse feedName ctx = inr feed
           /\ posts feed = []
           /\ tj_posts (timelines feed) = []).
Proof.
  intros timeline owner Hanon Hname.
  assert (Hcheck : checkAccess db (viewerIdOf ctx) owner
                   = String.eqb (isProtected owner) "0").
  { unfold viewerIdOf. by rewrite Hanon. }
  split.
  - rewrite Hcheck. apply String.eqb_eq.
  - intros Hprot.
    assert (Hrefused : checkAccess db (viewerIdOf ctx) owner = false)
      by (by rewrite Hcheck, Hprot).
    split; [done|].
    destruct (userTimeline_refused feedName ctx Hname Hrefused)
      as (feed & ? & ? & ? & _).
    by exists feed.
Qed.

Lemma getPostsWithStuffByIds_length (postsIds : list string)
    (viewerId : option string) (params : Params) :
  (length (getPostsWithStuffByIds db postsIds viewerId params)
   <= length postsIds)%nat.
Proof.
  unfold getPostsWithStuffByIds.
  induction postsIds as [|postId rest IH]; [done|].
  cbn [omap list_omap length] in *.
  destruct (getPostWithStuff db postId viewerId params);
    cbn [length]; lia.
Qed.

(** The page of [bestOf] when the limit is not negative. *)
Lemma bestOfPage_page (ctx : Ctx) :
  0 <= bestOfLimit ctx ->
  bestOfPage db ctx
  = inr (take (Z.to_nat (bestOfLimit ctx)) (bestOfFound db ctx),
         len (bestOfFound db ctx) <=? bestOfLimit ctx).
Proof.
  intros Hlimit. unfold bestOfPage. cbv zeta.
  destruct (len (bestOfFound db ctx) <=? bestOfLimit ctx) eqn:Hlast;
    cbn [negb].
  - apply Z.leb_le in Hlast. unfold len in Hlast.
    by rewrite (take_ge (bestOfFound db ctx)) by lia.
  - by rewrite setLength_page.
Qed.

(** The page of [genericTimeline] when the limit is not negative. *)
Lemma genericTimeline_pagination (timeline : Timeline)
    (viewerId : option string) (pp : PartialParams) :
  let params := effectiveParams timeline viewerId pp in
  let L := limit params in
  let src := resolveSources db config timeline viewerId params in
  let fetched := fetchPostsIds db timeline viewerId params src in
  0 <= L ->
  limit (pq_params (postsQuery params src)) = L + 1
  /\ (canViewUser src = true ->
      fetched = getTimelinePostsIds db (timeline_name timeline)
                  (timelineIds src) viewerId (postsQuery params src))
  /\ exists feed,
       genericTimeline ser db config timeline viewerId pp = inr feed
       /\ tj_posts (timelines feed) = take (Z.to_nat L) fetched
       /\ len (tj_posts (timelines feed)) <= L
       /\ len (posts feed) <= L
       /\ (L + 1 <= len fetched -> isLastPage feed = false)
       /\ (len fetched <= L ->
           isLastPage feed = true /\ tj_posts (timelines feed) = fetched)
       /\ (forall found : list string,
             fetched = take (Z.to_nat (L + 1)) found ->
             (L + 1 <= len found ->
              isLastPage feed = false
              /\ tj_posts (timelines feed) = take (Z.to_nat L) found)
             /\ (len found <= L ->
                 isLastPage feed = true
                 /\ tj_posts (timelines feed) = found)).
Proof.
  intros params L src fetched HL.
  split; [reflexivity|]. split.
  { intros Hcan. subst fetched. unfold fetchPostsIds. by rewrite Hcan. }
  destruct (genericTimeline_page timeline viewerId pp HL)
    as (feed & Hfeed & Hposts & Hlast & _ & _ & _ & Hjson).
  fold params src fetched L in Hposts, Hlast, Hjson.
  assert (Hcut : len (tj_posts (timelines feed)) <= L).
  { rewrite Hposts, len_take by done. lia. }
  exists feed. split; [done|]. split; [done|]. split; [done|].
  split; [|split; [|split]].
  - pose proof (getPostsWithStuffByIds_length
                  (tj_posts (timelines feed)) viewerId params) as Hlen.
    rewrite Hjson. unfold len in *. rewrite length_fmap. lia.
  - intros Hmore. rewrite Hlast. apply Z.leb_gt. lia.
  - intros Hfew. split; [rewrite Hlast; by apply Z.leb_le|].
    rewrite Hposts. unfold len in Hfew. apply take_ge. lia.
  - intros found Hfound.
    assert (Hlen : len fetched = Z.min (L + 1) (len found)).
    { rewrite Hfound. apply len_take. lia. }
    split.
    + intros Hmore. split; [rewrite Hlast; apply Z.leb_gt; lia|].
      rewrite Hposts, Hfound, take_take. f_equal. lia.
    + intros Hfew. split; [rewrite Hlast; apply Z.leb_le; lia|].
      unfold len in Hfew.
      rewrite Hposts, Hfound, take_take, take_ge; [done | lia].
Qed.

(** [bestOf] takes any number for a limit: with a negative one,
    [foundPosts.length = limit] raises a [RangeError]. *)
Lemma bestOf_negative_limit (ctx : Ctx) :
  bestOfLimit ctx < 0 -> bestOf ser db ctx = inl RangeError.
Proof.
  intros Hneg. unfold bestOf, bestOfPage. cbv zeta.
  assert (Hlast : (len (bestOfFound db ctx) <=? bestOfLimit ctx) = false).
  { apply Z.leb_gt. unfold len. lia. }
  rewrite Hlast. cbn [negb]. by rewrite setLength_negative.
Qed.

Lemma effectiveParams_flag (timeline : Timeline) (viewerId : option string)
    (pp : PartialParams) (flag : option bool) :
  timeline_name timeline <> "MyDiscussions" ->
  effectiveParams timeline viewerId (requestWithMyPosts pp flag)
  = effectiveParams timeline viewerId (requestWithMyPosts pp None).
Proof.
  intros Hname. apply String.eqb_neq in Hname.
  unfold effectiveParams, setWithMyPosts. cbn. rewrite Hname.
  by rewrite !andb_false_r.
Qed.

(** C10.  On a feed that is not MyDiscussions the effective [withMyPosts]
    is false and the answer does not depend on the flag requested.  On
    MyDiscussions with the flag set, the author list handed to the store
    is the viewer's id, and it is empty without the flag.  The flag of a
    request is set exactly when its [with-my-posts] value, in lower
    case, is 'yes', 'true', '1' or 'on'. *)
Theorem withMyPosts_only_on_MyDiscussions :
  (forall (timeline : Timeline) (viewerId : option string)
          (pp : PartialParams) (flag : option bool),
     timeline_name timeline <> "MyDiscussions" ->
     withMyPosts (effectiveParams timeline viewerId (requestWithMyPosts pp flag))
     = false
     /\ genericTimeline ser db config timeline viewerId
          (requestWithMyPosts pp flag)
        = genericTimeline ser db config timeline viewerId
            (requestWithMyPosts pp None))
  /\ (forall (timeline : Timeline) (viewerId : option string)
             (pp : PartialParams),
        let params := effectiveParams timeline viewerId pp in
        let src := resolveSources db config timeline viewerId params in
        timeline_name timeline = "MyDiscussions" ->
        (pp_withMyPosts pp = Some true ->
         withMyPosts params = true
         /\ authorsIds src = [viewerId]
         /\ pq_authorsIds (postsQuery params src) = [viewerId])
        /\ (pp_withMyPosts pp <> Some true ->
            withMyPosts params = false
            /\ pq_authorsIds (postsQuery params src) = [])
        /\ fetchPostsIds db timeline viewerId params src
           = getTimelinePostsIds db "MyDiscussions"
               [getCommentsTimelineIntId db (getUser db timeline);
                getLikesTimelineIntId db (getUser db timeline)]
               viewerId (postsQuery params src))
  /\ (forall (ctx : Ctx) (defaultSort : string) (route : PartialParams),
        let p := getCommonParams dateParse ctx defaultSort in
        (cp_withMyPosts p = true
         <-> toLowerCase (stringOr (query_with_my_posts (query ctx)) "")
             ∈ ["yes"; "true"; "1"; "on"])
        /\ pp_withMyPosts (spread route (ofCommon p))
           = Some (cp_withMyPosts p)).
Proof.
  split; [|split].
  - intros timeline viewerId pp flag Hname. split.
    + apply String.eqb_neq in Hname.
      unfold effectiveParams, setWithMyPosts. cbn. rewrite Hname.
      apply andb_false_r.
    + unfold genericTimeline. by rewrite effectiveParams_flag.
  - intros timeline viewerId pp params src Hname.
    assert (Hflag : withMyPosts params = default false (pp_withMyPosts pp)).
    { subst params. unfold effectiveParams, setWithMyPosts. cbn.
      rewrite Hname. cbn. apply andb_true_r. }
    assert (Hsrc : src = mkSources
              [getCommentsTimelineIntId db (getUser db timeline);
               getLikesTimelineIntId db (getUser db timeline)]
              [] (if withMyPosts params then [viewerId] else []) true).
    { subst src. unfold resolveSources. by rewrite Hname. }
    split; [|split].
    + intros Hset. rewrite Hset in Hflag.
      change (withMyPosts params = true) in Hflag.
      split; [done|]. rewrite Hsrc. unfold postsQuery.
      cbn [authorsIds pq_authorsIds]. by rewrite Hflag.
    + intros Hunset.
      assert (Hoff : withMyPosts params = false).
      { rewrite Hflag. by destruct (pp_withMyPosts pp) as [[]|]. }
      split; [done|]. rewrite Hsrc. unfold postsQuery.
      cbn [authorsIds pq_authorsIds]. by rewrite Hoff.
    + unfold fetchPostsIds. rewrite Hsrc. cbn [canViewUser timelineIds].
      by rewrite Hname.
  - intros ctx defaultSort route p. split; [|reflexivity].
    subst p. unfold getCommonParams. cbn [cp_withMyPosts].
    apply includes_true.
Qed.

End Facts.

End TimelineFacts.

Module TimelineWitnesses.
Import JS Timelines JSFacts Examples.

(** Mars, who does not subscribe to Luna and is in no ban relation with
    her, reads the Posts of Luna, who is private. *)
Lemma refused_read_keeps_identity_witness :
  exists feed,
    userTimeline exampleSer exampleDb exampleConfig noDates "Posts"
      (mkCtx noQuery (Some mars) luna) = inr feed
    /\ posts feed = []
    /\ tj_posts (timelines feed) = []
    /\ tj_id (timelines feed) = "luna/Posts"
    /\ tj_name (timelines feed) = "Posts"
    /\ tj_user (timelines feed) = "luna".
Proof.
  apply (TimelineFacts.refused_read_keeps_identity exampleSer exampleDb
           exampleConfig noDates "Posts" (mkCtx noQuery (Some mars) luna));
    reflexivity.
Defined.

(** Zeus banned Mars: Mars reads no post of Zeus, and Zeus none of Mars.
    Luna banned Zeus: Zeus, who subscribes to Luna, reads no post of her. *)
Lemma ban_relation_hides_feeds_witness :
  (exists feed,
     userTimeline exampleSer exampleDb exampleConfig noDates "Posts"
       (mkCtx noQuery (Some mars) zeus) = inr feed
     /\ posts feed = [] /\ tj_posts (timelines feed) = [])
  /\ (exists feed,
        userTimeline exampleSer exampleDb exampleConfig noDates "Posts"
          (mkCtx noQuery (Some zeus) mars) = inr feed
        /\ posts feed = [] /\ tj_posts (timelines feed) = [])
  /\ (exists feed,
        userTimeline exampleSer exampleDb exampleConfig noDates "Likes"
          (mkCtx noQuery (Some zeus) luna) = inr feed
        /\ posts feed = [] /\ tj_posts (timelines feed) = []).
Proof.
  split; [|split].
  - apply (TimelineFacts.ban_relation_hides_feeds exampleSer exampleDb
             exampleConfig noDates "Posts" (mkCtx noQuery (Some mars) zeus) mars);
      [reflexivity | reflexivity | discriminate | discriminate |].
    right. vm_compute. constructor.
  - apply (TimelineFacts.ban_relation_hides_feeds exampleSer exampleDb
             exampleConfig noDates "Posts" (mkCtx noQuery (Some zeus) mars) zeus);
      [reflexivity | reflexivity | discriminate | discriminate |].
    left. vm_compute. constructor.
  - apply (TimelineFacts.ban_relation_hides_feeds exampleSer exampleDb
             exampleConfig noDates "Likes" (mkCtx noQuery (Some zeus) luna) zeus);
      [reflexivity | reflexivity | discriminate | discriminate |].
    right. vm_compute. right. constructor.
Defined.

(** Nobody is logged in and the Posts of Zeus, who is protected, are
    read. *)
Lemma anonymous_read_of_protected_witness :
  checkAccess exampleDb None zeus = false
  /\ exists feed,
       userTimeline exampleSer exampleDb exampleConfig noDates "Posts"
         (mkCtx noQuery None zeus) = inr feed
       /\ posts feed = []
       /\ tj_posts (timelines feed) = [].
Proof.
  apply (TimelineFacts.anonymous_read_of_protected exampleSer exampleDb
           exampleConfig noDates "Posts" (mkCtx noQuery None zeus));
    reflexivity.
Defined.

(** Mars reads her own Posts, then her MyDiscussions, with the flag set. *)
Lemma withMyPosts_only_on_MyDiscussions_witness :
  genericTimeline exampleSer exampleDb exampleConfig (feedOf "mars" "Posts")
    (Some "mars") (requestWithMyPosts emptyParams (Some true))
  = genericTimeline exampleSer exampleDb exampleConfig (feedOf "mars" "Posts")
      (Some "mars") (requestWithMyPosts emptyParams None)
  /\ (let timeline := feedOf "mars" "MyDiscussions" in
      let pp :=
        ofCommon (getCommonParams noDates
                    (mkCtx (myPostsQuery "Yes") (Some mars) mars) "bumped") in
      let params := effectiveParams timeline (Some "mars") pp in
      pq_authorsIds
        (postsQuery params
           (resolveSources exampleDb exampleConfig timeline (Some "mars") params))
      = [Some "mars"]).
Proof.
  split.
  - apply (proj1 (TimelineFacts.withMyPosts_only_on_MyDiscussions
                    exampleSer exampleDb exampleConfig noDates)).
    discriminate.
  - apply (proj1 (proj2 (TimelineFacts.withMyPosts_only_on_MyDiscussions
                           exampleSer exampleDb exampleConfig noDates)));
      reflexivity.
Defined.


Lemma getCommonParams_homefeedMode_witness :
  cp_homefeedMode
    (getCommonParams noDates (exampleCtx (modeQuery "everything")) "bumped")
  = "classic"
  /\ cp_homefeedMode
       (getCommonParams noDates (exampleCtx (modeQuery "friends-only")) "bumped")
     = "friends-only".
Proof.
  split.
  - destruct (TimelineFacts.getCommonParams_homefeedMode exampleSer exampleDb
                exampleConfig noDates
                (exampleCtx (modeQuery "everything")) "bumped")
      as (Hdefault & _).
    apply Hdefault. right. exists "everything". split; [reflexivity|].
    apply includes_false. reflexivity.
  - destruct (TimelineFacts.getCommonParams_homefeedMode exampleSer exampleDb
                exampleConfig noDates
                (exampleCtx (modeQuery "friends-only")) "bumped")
      as (_ & Hkept & _).
    apply Hkept; [reflexivity|].
    apply includes_true. reflexivity.
Defined.

End TimelineWitnesses.

(** ** Creating and destroying a comment *)

Module CommentFacts.
Import JS CommentModel JSFacts.

(** [valid] holds exactly of a comment with a body, a user and a post. *)
Lemma valid_spec (this : Comment) :
  valid this = true
  <-> body this <> EmptyString
      /\ truthy (userId this) = true /\ truthy (postId this) = true.
Proof.
  unfold valid.
  destruct (body this) as [|c r], (userId this) as [[|cu ru]|],
    (postId this) as [[|cp rp]|]; cbn; intuition congruence.
Qed.

(** An invalid comment is rejected before anything is written. *)
Lemma create_invalid (now1 now2 : Z) (newId : string) (this : Comment)
    (w : World) :
  body this = EmptyString
  \/ truthy (userId this) = false \/ truthy (postId this) = false ->
  create now1 now2 newId this w = (inl (ErrorMsg "Invalid"), w).
Proof.
  intros Hinvalid.
  assert (Hv : valid (mkComment (comment_id this) (body_ this) (userId this)
                        (postId this) (Some (StampNumber now1))
                        (Some (StampNumber now2))) = false).
  { apply not_true_is_false. intros Hv. apply valid_spec in Hv.
    cbn in Hv. unfold body in Hinvalid.
    destruct Hv as (? & ? & ?). destruct Hinvalid as [?|[?|?]]; congruence. }
  unfold create, bind, lift, validate. cbv zeta. by rewrite Hv.
Qed.

Lemma setBody_blank (v : option string) :
  v = None \/ (exists s, v = Some s /\ blank s) -> setBody v = EmptyString.
Proof.
  intros [-> | (s & -> & Hs)]; [done|].
  destruct s as [|c r]; [done|]. by apply trim_blank.
Qed.

(** C5.  A comment made with a body that is absent, empty or white space
    only (the setter trims it to the empty string), or with a [userId] or a
    [postId] that is absent or empty, is rejected by [create] with the
    error "Invalid", and
    the world is the one before the call: no record is stored, no
    timeline, post or counter is written and nothing is published. *)
Theorem create_invalid_is_local (now1 now2 : Z) (newId : string)
    (params : Params) (w : World) :
  (params_body params = None
   \/ exists s, params_body params = Some s /\ blank s)
  \/ truthy (params_userId params) = false
  \/ truthy (params_postId params) = false ->
  create now1 now2 newId (newComment params) w = (inl (ErrorMsg "Invalid"), w).
Proof.
  intros [Hbody | Hassoc]; apply create_invalid.
  - left. unfold body, newComment. cbn. by apply setBody_blank.
  - right. exact Hassoc.
Qed.

(** What [create] does for a valid comment of a known user on an existing
    post. *)
Lemma create_valid (now1 now2 : Z) (newId : string) (this : Comment)
    (w : World) (user post author timelineId : string) (n : Z) :
  body this <> EmptyString ->
  userId this = Some user -> user <> EmptyString ->
  postId this = Some post -> post <> EmptyString ->
  postRows w !! post = Some author ->
  commentsTimelineIds w !! user = Some timelineId ->
  statsComments w !! user = Some n ->
  create now1 now2 newId this w
  = (inr (mkComment (Some newId) (body_ this) (Some user) (Some post)
            (Some (StampNumber now1)) (Some (StampNumber now2)),
          [timelineId]),
     mkWorld
       (<[newId := mkPayload (body this) user post
                     (StampNumber now1) (StampNumber now2)]> (commentRows w))
       (postRows w)
       (<[post := default [] (postComments w !! post) ++ [newId]]>
          (postComments w))
       (<[timelineId :=
            <[post := now2]> (default ∅ (timelinePosts w !! timelineId))]>
          (timelinePosts w))
       (<[post := {[timelineId]} ∪ default ∅ (postTimelines w !! post)]>
          (postTimelines w))
       (commentsTimelineIds w)
       (<[user := n + 1]> (statsComments w))
       (published w)).
Proof.
  intros Hbody Huser Huser' Hpost Hpost' Hrow Htl Hstats.
  assert (Hv : valid (mkComment (comment_id this) (body_ this) (userId this)
                        (postId this) (Some (StampNumber now1))
                        (Some (StampNumber now2))) = true).
  { apply valid_spec. cbn. rewrite Huser, Hpost.
    by destruct user, post. }
  unfold create, bind, lift, validate. cbv zeta. rewrite Hv. cbn [negb].
  rewrite Huser, Hpost.
  unfold dbAdapter_createComment, Post_findById, Post_addComment,
    User_findById, User_getCommentsTimelineId, Stats_findById,
    Stats_addComment, Stats_incr, deref, bind, ret, gets, modify, throw.
  repeat (cbn; rewrite ?Hrow, ?Htl, ?Hstats). reflexivity.
Qed.

(** The comments [destroy] looks at, once the record of [commentId] is
    deleted and the comment is taken out of the post. *)
Lemma anyByUser_remaining (w : World) (user post commentId : string) :
  anyByUser
    (omap (fun c => (fun r => (c, r)) <$> delete commentId (commentRows w) !! c)
          (default []
             (alter (filter (fun x => x <> commentId)) post (postComments w)
              !! post)))
    (Some user) = true
  <-> hasOtherComment w user post commentId.
Proof.
  unfold anyByUser, hasOtherComment. rewrite existsb_exists.
  rewrite lookup_alter_eq. split.
  - intros ([c row] & Hin & Hby).
    apply bool_decide_eq_true in Hby. injection Hby as Hby.
    apply list_elem_of_In, list_elem_of_omap in Hin as (c' & Hc' & Hrow).
    destruct (delete commentId (commentRows w) !! c') as [row'|] eqn:Hdel;
      [|done].
    cbn in Hrow. injection Hrow as -> ->.
    destruct (postComments w !! post) as [l|]; cbn in Hc';
      [|by apply elem_of_nil in Hc'].
    apply list_elem_of_filter in Hc' as [Hne Hc'].
    rewrite lookup_delete_ne in Hdel by done.
    by exists c, row.
  - intros (c & row & Hne & Hc & Hrow & Hby).
    exists (c, row). split.
    + apply list_elem_of_In, list_elem_of_omap. exists c. split.
      * destruct (postComments w !! post) as [l|]; cbn in *;
          [by apply list_elem_of_filter | done].
      * by rewrite lookup_delete_ne, Hrow.
    + apply bool_decide_eq_true. cbn. by rewrite Hby.
Qed.

(** What [destroy] does to the comment [commentId] of a known user on an
    existing post: the membership is left alone when the user has another
    comment on the post, and retracted otherwise. *)
Lemma destroy_known (this : Comment) (w : World)
    (commentId user post author timelineId : string) (n : Z) :
  comment_id this = Some commentId ->
  userId this = Some user ->
  postId this = Some post ->
  postRows w !! post = Some author ->
  commentsTimelineIds w !! user = Some timelineId ->
  statsComments w !! user = Some n ->
  exists r w2,
    destroy this w = (inr r, w2)
    /\ commentsTimelineIds w2 = commentsTimelineIds w
    /\ ((hasOtherComment w user post commentId
         /\ r = AnsweredTrue
         /\ timelinePosts w2 = timelinePosts w
         /\ postTimelines w2 = postTimelines w)
        \/ (~ hasOtherComment w user post commentId
            /\ r = AnsweredStats (n - 1)
            /\ timelinePosts w2
               = alter (delete post) timelineId (timelinePosts w)
            /\ postTimelines w2
               = alter (fun s => s ∖ {[timelineId]}) post (postTimelines w))).
Proof.
  intros Hid Huser Hpost Hrow Htl Hstats.
  pose proof (anyByUser_remaining w user post commentId) as Hany.
  unfold destroy. rewrite Hid, Huser, Hpost.
  unfold pubSub_destroyComment, dbAdapter_deleteComment,
    dbAdapter_removeCommentFromPost, Post_findById, Post_getComments,
    User_findById, User_getCommentsTimelineId,
    dbAdapter_removePostFromTimeline, dbAdapter_deletePostUsageInTimeline,
    Stats_findById, Stats_removeComment, Stats_incr,
    deref, bind, ret, gets, modify, throw.
  cbn. rewrite Hrow. cbn.
  destruct (anyByUser _ (Some user)) eqn:Hother.
  - eexists _, _. split; [reflexivity|]. split; [reflexivity|].
    left. by split; [apply Hany|].
  - repeat (cbn; rewrite ?Htl, ?Hstats).
    eexists _, _. split; [reflexivity|]. split; [reflexivity|].
    right. split; [|done].
    intros Hhas. apply Hany in Hhas. congruence.
Qed.

Lemma inCommentsTimeline_true (w : World) (user post : string) :
  inCommentsTimeline w user post = true
  <-> is_Some (commentsMembership w user post).
Proof. apply bool_decide_eq_true. Qed.

Lemma inCommentsTimeline_false (w : World) (user post : string) :
  inCommentsTimeline w user post = false
  <-> commentsMembership w user post = None.
Proof.
  unfold inCommentsTimeline. rewrite bool_decide_eq_false.
  by rewrite eq_None_not_Some.
Qed.

Lemma membership_retracted (w w2 : World) (user post timelineId : string) :
  commentsTimelineIds w2 = commentsTimelineIds w ->
  commentsTimelineIds w !! user = Some timelineId ->
  timelinePosts w2 = alter (delete post) timelineId (timelinePosts w) ->
  commentsMembership w2 user post = None.
Proof.
  intros Hids Htl Hgone. unfold commentsMembership.
  rewrite Hids, Htl, Hgone. cbn. rewrite lookup_alter_eq.
  destruct (timelinePosts w !! timelineId) as [members|]; cbn;
    [apply lookup_delete_eq | done].
Qed.

(** C4, as amended.  A comment of a user on a post is created and then
    destroyed.  After [create] the post is in the Comments timeline of the
    user, bumped to the time of the comment.  [destroy] takes the post out
    of that timeline if and only if the user has no other comment
    remaining on the post; when the user has another one, the timelines
    are left as they were, membership and bump time included.  When the
    post was not in the timeline before the comment, the round trip brings
    the membership back to what it was if and only if the user has no
    other comment remaining on the post. *)
Theorem destroy_retracts_iff_last (now1 now2 : Z) (newId : string)
    (this : Comment) (w0 : World)
    (user post author timelineId : string) (n : Z) :
  body this <> EmptyString ->
  userId this = Some user -> user <> EmptyString ->
  postId this = Some post -> post <> EmptyString ->
  postRows w0 !! post = Some author ->
  commentsTimelineIds w0 !! user = Some timelineId ->
  statsComments w0 !! user = Some n ->
  exists this' timelines w1 r w2,
    create now1 now2 newId this w0 = (inr (this', timelines), w1)
    /\ destroy this' w1 = (inr r, w2)
    /\ commentsMembership w1 user post = Some now2
    /\ (inCommentsTimeline w2 user post = false
        <-> ~ hasOtherComment w1 user post newId)
    /\ (hasOtherComment w1 user post newId ->
        timelinePosts w2 = timelinePosts w1
        /\ commentsMembership w2 user post = Some now2)
    /\ (inCommentsTimeline w0 user post = false ->
        (inCommentsTimeline w2 user post = inCommentsTimeline w0 user post
         <-> ~ hasOtherComment w1 user post newId)).
Proof.
  intros Hbody Huser Huser' Hpost Hpost' Hrow Htl Hstats.
  pose proof (create_valid now1 now2 newId this w0 user post author
                timelineId n Hbody Huser Huser' Hpost Hpost' Hrow Htl Hstats)
    as Hcreate.
  match type of Hcreate with _ = (inr (?c, _), ?w) =>
    set (this' := c) in *; set (w1 := w) in * end.
  assert (Hmember1 : commentsMembership w1 user post = Some now2).
  { unfold commentsMembership. cbn. rewrite Htl. cbn.
    rewrite lookup_insert_eq. cbn. apply lookup_insert_eq. }
  destruct (destroy_known this' w1 newId user post author timelineId (n + 1))
    as (r & w2 & Hdestroy & Hids & Hcases);
    [done | done | done | done | done | apply lookup_insert_eq |].
  assert (Hmember2 :
    (inCommentsTimeline w2 user post = false
     <-> ~ hasOtherComment w1 user post newId)
    /\ (hasOtherComment w1 user post newId ->
        timelinePosts w2 = timelinePosts w1
        /\ commentsMembership w2 user post = Some now2)).
  { destruct Hcases as [(Hother & _ & Hkept & _) | (Hlast & _ & Hgone & _)].
    - assert (Hsame : commentsMembership w2 user post = Some now2).
      { rewrite <- Hmember1. unfold commentsMembership.
        by rewrite Hids, Hkept. }
      split; [|done]. rewrite inCommentsTimeline_false, Hsame. split; [done|].
      by intros Hnot.
    - split; [|done]. split; [done|]. intros _.
      apply inCommentsTimeline_false.
      by apply (membership_retracted w1 w2 user post timelineId). }
  destruct Hmember2 as [Hiff Hkept].
  exists this', [timelineId], w1, r, w2.
  split; [done|]. split; [done|]. split; [done|]. split; [done|].
  split; [done|]. intros Hbefore. by rewrite Hbefore.
Qed.

End CommentFacts.

Module CommentWitnesses.
Import JS CommentModel JSFacts CommentExamples.

(** A comment of white space, and a comment without a user. *)
Lemma create_invalid_is_local_witness :
  create 5 6 "c2" (lunaComment "   ") freshWorld
  = (inl (ErrorMsg "Invalid"), freshWorld)
  /\ create 5 6 "c2"
       (newComment (mkParams None (Some "hello") None (Some "p1") None None))
       commentedWorld
     = (inl (ErrorMsg "Invalid"), commentedWorld).
Proof.
  split.
  - apply (CommentFacts.create_invalid_is_local 5 6 "c2"
             (mkParams None (Some "   ") (Some "luna") (Some "p1") None None)
             freshWorld).
    left. right. exists "   ". split; [reflexivity|].
    unfold blank. cbn. repeat constructor.
  - apply (CommentFacts.create_invalid_is_local 5 6 "c2"
             (mkParams None (Some "hello") None (Some "p1") None None)
             commentedWorld).
    right. left. reflexivity.
Defined.

(** Luna comments on a post she had not commented on, and destroys the
    comment: the post is out of her Comments timeline again. *)
Lemma destroy_retracts_iff_last_witness :
  exists this' timelines w1 r w2,
    create 5 6 "c2" (lunaComment "second") freshWorld
    = (inr (this', timelines), w1)
    /\ destroy this' w1 = (inr r, w2)
    /\ commentsMembership w1 "luna" "p1" = Some 6
    /\ (inCommentsTimeline w2 "luna" "p1" = false
        <-> ~ hasOtherComment w1 "luna" "p1" "c2")
    /\ (hasOtherComment w1 "luna" "p1" "c2" ->
        timelinePosts w2 = timelinePosts w1
        /\ commentsMembership w2 "luna" "p1" = Some 6)
    /\ (inCommentsTimeline freshWorld "luna" "p1" = false ->
        (inCommentsTimeline w2 "luna" "p1"
         = inCommentsTimeline freshWorld "luna" "p1"
         <-> ~ hasOtherComment w1 "luna" "p1" "c2")).
Proof.
  apply (CommentFacts.destroy_retracts_iff_last 5 6 "c2" (lunaComment "second")
           freshWorld "luna" "p1" "mars" "luna/Comments" 0);
    first [reflexivity | discriminate].
Defined.

(** Luna already has the comment c1 on the post p1, which is in her
    Comments timeline.  She creates c2 and destroys it: the post is in her
    timeline as it was before c2, and yet she has another comment
    remaining on it. *)
Lemma roundTripLaw_counterexample :
  ~ roundTripLaw commentedWorld 5 6 "c2" (lunaComment "second") "luna" "p1".
Proof.
  unfold roundTripLaw. intros Hlaw.
  pose proof (CommentFacts.create_valid 5 6 "c2" (lunaComment "second")
                commentedWorld "luna" "p1" "mars" "luna/Comments" 1) as Hcreate.
  match type of Hcreate with _ -> _ -> _ -> _ -> _ -> _ -> _ -> _ -> _ = (inr (?c, _), ?w) =>
    set (this' := c) in *; set (w1 := w) in * end.
  specialize (Hcreate ltac:(discriminate) eq_refl ltac:(discriminate) eq_refl
                ltac:(discriminate) eq_refl eq_refl eq_refl).
  assert (Hother : hasOtherComment w1 "luna" "p1" "c2").
  { exists "c1", (mkPayload "first" "luna" "p1" (StampNumber 1) (StampNumber 1)).
    split; [discriminate|]. split; [|split; reflexivity].
    vm_compute. constructor. }
  destruct (CommentFacts.destroy_known this' w1 "c2" "luna" "p1" "mars"
              "luna/Comments" 2)
    as (r & w2 & Hdestroy & Hids & Hcases); try reflexivity.
  specialize (Hlaw this' _ w1 r w2 Hcreate Hdestroy).
  destruct Hcases as [(_ & _ & Hkept & _) | (Hlast & _)]; [|done].
  apply Hlaw; [|done].
  unfold inCommentsTimeline, commentsMembership. rewrite Hids, Hkept.
  reflexivity.
Qed.

End CommentWitnesses.

(** ** The link element of [metatags] and the monitor names *)

Module EscapeFacts.
Import JS Escapes.

Lemma countChar_append (x : ascii) (a b : string) :
  countChar x (a +:+ b) = (countChar x a + countChar x b)%nat.
Proof.
  induction a as [|c r IH]; simpl; [done|]. rewrite IH. lia.
Qed.

Lemma countChar_quoted (x : ascii) (s : string) :
  countChar x (quoted s)
  = ((if Ascii.eqb dquote x then 2 else 0) + countChar x s)%nat.
Proof.
  unfold quoted. cbn [countChar]. rewrite countChar_append. cbn [countChar].
  destruct (Ascii.eqb dquote x); lia.
Qed.

(** [_.escape] leaves no character that has an entity, the ampersand of
    the entities apart. *)
Lemma escape_leaves_none (x : ascii) (s : string) :
  is_Some (htmlEscapes x) -> x <> "&"%char -> countChar x (escape s) = 0%nat.
Proof.
  intros Hx Hamp. induction s as [|c r IH]; [done|].
  cbn [escape]. destruct (htmlEscapes c) as [entity|] eqn:Hc.
  - rewrite countChar_append, IH.
    unfold htmlEscapes in Hc, Hx.
    repeat match type of Hc with
      | (if ?b then _ else _) = _ => destruct b
      end; [..|discriminate]; injection Hc as <-;
      repeat match type of Hx with
        | is_Some (if Ascii.eqb x ?y then _ else _) =>
            destruct (Ascii.eqb_spec x y) as [->|?]
        end; try done; try (by destruct Hx).
  - cbn [countChar]. rewrite IH.
    destruct (Ascii.eqb_spec c x) as [->|?]; [|done].
    rewrite Hc in Hx. by destruct Hx.
Qed.

Lemma list_ascii_of_string_append (a b : string) :
  list_ascii_of_string (a +:+ b)
  = list_ascii_of_string a ++ list_ascii_of_string b.
Proof. induction a as [|c r IH]; simpl; [done|]. by rewrite IH. Qed.

Lemma escapeUnit_safe_check (c : ascii) :
  forallb urlSafe (list_ascii_of_string (escapeUnit c)) = true.
Proof. destruct c as [[] [] [] [] [] [] [] []]; vm_compute; reflexivity. Qed.

Lemma escapeUnit_safe (c : ascii) :
  Forall (fun x => urlSafe x = true) (list_ascii_of_string (escapeUnit c)).
Proof.
  apply Forall_forall. intros x Hx. apply list_elem_of_In in Hx.
  exact (proj1 (forallb_forall _ _) (escapeUnit_safe_check c) x Hx).
Qed.

Lemma urlEscape_safe (s : string) :
  Forall (fun x => urlSafe x = true) (list_ascii_of_string (urlEscape s)).
Proof.
  induction s as [|c r IH]; [constructor|].
  cbn [urlEscape]. rewrite list_ascii_of_string_append.
  apply Forall_app. split; [apply escapeUnit_safe | done].
Qed.

Lemma urlEscape_unreserved (s : string) :
  Forall (fun x => unreserved x = true) (list_ascii_of_string s) ->
  urlEscape s = s.
Proof.
  induction s as [|c r IH]; [done|]. cbn. intros Hall.
  apply Forall_cons in Hall as [Hc Hr].
  unfold escapeUnit. rewrite Hc. cbn. by rewrite IH.
Qed.

Lemma toLowerChar_idempotent (c : ascii) :
  toLowerChar (toLowerChar c) = toLowerChar c.
Proof. destruct c as [[] [] [] [] [] [] [] []]; vm_compute; reflexivity. Qed.

Lemma toLowerCase_noCapital (s : string) : noCapital (toLowerCase s).
Proof.
  unfold noCapital. induction s as [|c r IH]; cbn; constructor;
    [apply toLowerChar_idempotent | done].
Qed.

Lemma noCapital_toLowerCase (s : string) : noCapital s -> toLowerCase s = s.
Proof.
  unfold noCapital. induction s as [|c r IH]; [done|]. cbn. intros Hall.
  apply Forall_cons in Hall as [-> Hr]. by rewrite IH.
Qed.

End EscapeFacts.

Module MetatagsFacts.
Import JS Timelines Escapes Metatags EscapeFacts.

(** X1.  [metatags] answers the empty body exactly when no feed owner has
    the name or the owner is not active; otherwise it answers the link
    element. *)
Theorem metatags_empty_body (host : string)
    (getFeedOwnerByUsername : string -> option FeedOwner)
    (usernameParam : string) :
  (metatags host getFeedOwnerByUsername usernameParam = EmptyString
   <-> getFeedOwnerByUsername usernameParam = None
       \/ exists targetUser,
            getFeedOwnerByUsername usernameParam = Some targetUser
            /\ isActive targetUser = false)
  /\ (forall targetUser,
        getFeedOwnerByUsername usernameParam = Some targetUser ->
        isActive targetUser = true ->
        metatags host getFeedOwnerByUsername usernameParam
        = rssLink (rssTitle targetUser) (rssURL host targetUser)).
Proof.
  unfold metatags. split.
  - destruct (getFeedOwnerByUsername usernameParam) as [targetUser|];
      [|by split; [left|]].
    destruct (isActive targetUser) eqn:Hactive; cbn [negb]; split.
    + discriminate.
    + intros [? | (u & [= <-] & Hu)]; congruence.
    + intros _. right. by exists targetUser.
    + done.
  - by intros targetUser -> ->.
Qed.

(** X2.  Whatever the name of the owner and the host are, the link element
    has the ten double quotes, the one [<] and the one [>] of its
    template: the title and the address cannot close an attribute or the
    element.  The name enters the address percent-encoded: letters, digits,
    the marks [! ' ( ) * - . _ ~] and [%] only, and a name made of the
    former is kept as it is. *)
Theorem metatags_markup_is_fixed (host : string)
    (getFeedOwnerByUsername : string -> option FeedOwner)
    (usernameParam : string) (targetUser : FeedOwner) :
  getFeedOwnerByUsername usernameParam = Some targetUser ->
  isActive targetUser = true ->
  let body := metatags host getFeedOwnerByUsername usernameParam in
  countChar dquote body = 10%nat
  /\ countChar "<" body = 1%nat
  /\ countChar ">" body = 1%nat
  /\ (exists segment,
        rssURL host targetUser = host +:+ "/v2/timelines-rss/" +:+ segment
        /\ Forall (fun c => urlSafe c = true) (list_ascii_of_string segment)
        /\ (Forall (fun c => unreserved c = true)
              (list_ascii_of_string (username targetUser)) ->
            segment = username targetUser)).
Proof.
  intros Hfound Hactive body. subst body. unfold metatags.
  rewrite Hfound, Hactive. cbn [negb]. unfold rssLink.
  assert (Hquote : forall s, countChar dquote (escape s) = 0%nat)
    by (intros s; by apply escape_leaves_none).
  assert (Hlt : forall s, countChar "<" (escape s) = 0%nat)
    by (intros s; by apply escape_leaves_none).
  assert (Hgt : forall s, countChar ">" (escape s) = 0%nat)
    by (intros s; by apply escape_leaves_none).
  split; [|split; [|split]].
  - rewrite !countChar_append, !countChar_quoted, !Hquote. reflexivity.
  - rewrite !countChar_append, !countChar_quoted, !Hlt. reflexivity.
  - rewrite !countChar_append, !countChar_quoted, !Hgt. reflexivity.
  - exists (urlEscape (username targetUser)).
    split; [reflexivity|]. split; [apply urlEscape_safe|].
    apply urlEscape_unreserved.
Qed.

(** X3.  The monitor name of a feed has no capital letter, and naming is
    idempotent: the name of a monitor name is that name. *)
Theorem monitoredFeedName_lower_case (feedName : string) :
  noCapital (monitoredFeedName feedName)
  /\ toLowerCase (monitoredFeedName feedName) = monitoredFeedName feedName
  /\ monitoredFeedName (monitoredFeedName feedName) = monitoredFeedName feedName.
Proof.
  assert (Hlow : noCapital (monitoredFeedName feedName)).
  { unfold monitoredFeedName.
    destruct (String.eqb feedName "RiverOfNews");
      [unfold noCapital; cbn; by repeat constructor|].
    destruct (String.eqb feedName "MyDiscussions");
      [unfold noCapital; cbn; by repeat constructor|].
    apply toLowerCase_noCapital. }
  split; [done|]. split; [by apply noCapital_toLowerCase|].
  unfold monitoredFeedName at 1.
  destruct (String.eqb_spec (monitoredFeedName feedName) "RiverOfNews")
    as [Heq|_].
  { rewrite Heq in Hlow. unfold noCapital in Hlow. cbn in Hlow.
    apply Forall_cons in Hlow as [Hc _]. discriminate. }
  destruct (String.eqb_spec (monitoredFeedName feedName) "MyDiscussions")
    as [Heq|_].
  { rewrite Heq in Hlow. unfold noCapital in Hlow. cbn in Hlow.
    apply Forall_cons in Hlow as [Hc _]. discriminate. }
  by apply noCapital_toLowerCase.
Qed.

End MetatagsFacts.

Module MetatagsWitnesses.
Import JS Timelines Escapes Metatags MoreExamples.

(** The owner whose name holds quotes, angle brackets and an ampersand. *)
Lemma metatags_markup_is_fixed_witness :
  let body := metatags "https://freefeed.net" lookupOwner "tricky" in
  countChar dquote body = 10%nat
  /\ countChar "<" body = 1%nat
  /\ countChar ">" body = 1%nat.
Proof.
  destruct (MetatagsFacts.metatags_markup_is_fixed "https://freefeed.net"
              lookupOwner "tricky" trickyOwner eq_refl eq_refl)
    as (Hquote & Hlt & Hgt & _).
  by split; [|split].
Defined.

End MetatagsWitnesses.

(** ** More on reading a feed *)

Module AccessFacts.
Import JS Timelines JSFacts.

Section Facts.
Context {SPost SComment SAttachment SUser SCollection StatsRow : Type}.
Context (ser : Serializers SPost SComment SAttachment SUser SCollection StatsRow).
Context (db : DbAdapter StatsRow).
Context (config : Config).
Context (dateParse : string -> option Z).

(** X4.  An authenticated viewer passes the access check of a Posts,
    Comments or Likes feed exactly when the viewer is the owner, or the
    owner is not private or has the viewer among the subscribers, and in
    both of the latter cases no ban relation holds between the two.  The
    [isProtected] flag of the owner plays no part for such a viewer. *)
Theorem checkAccess_authenticated (viewerId : string) (owner : User) :
  viewerId <> EmptyString ->
  (checkAccess db (Some viewerId) owner = true
   <-> viewerId = user_id owner
       \/ ((isPrivate owner <> "1"
            \/ viewerId ∈ getUserSubscribersIds db (user_id owner))
           /\ ~ banRelation db viewerId (user_id owner))).
Proof using db.
  clear ser config dateParse. intros Hid. unfold checkAccess. destruct viewerId as [|c r]; [done|].
  set (v := String c r) in *.
  assert (Hban : includes (user_id owner) (getUsersBansOrWasBannedBy db v) = true
                 <-> banRelation db v (user_id owner)).
  { rewrite includes_true.
    apply TimelineFacts.getUsersBansOrWasBannedBy_spec. }
  pose proof (includes_true v (getUserSubscribersIds db (user_id owner)))
    as Hsub.
  destruct (String.eqb_spec v (user_id owner)) as [Hown|Hother]; cbn [negb].
  { split; [by left | done]. }
  destruct (String.eqb_spec (isPrivate owner) "1") as [Hprivate|Hpublic];
    destruct (includes v (getUserSubscribersIds db (user_id owner)));
    destruct (includes (user_id owner) (getUsersBansOrWasBannedBy db v));
    cbn [negb]; intuition congruence.
Qed.

(** X5.  Only a Posts, Comments or Likes feed is ever refused: the viewer
    is refused exactly when the feed is one of the three and the access
    check fails.  Every other feed is read without a check. *)
Theorem only_checked_feeds_are_refused (timeline : Timeline)
    (viewerId : option string) (params : Params) :
  canViewUser (resolveSources db config timeline viewerId params) = false
  <-> includes (timeline_name timeline) checkedFeeds = true
      /\ checkAccess db viewerId (getUser db timeline) = false.
Proof.
  destruct (includes (timeline_name timeline) checkedFeeds) eqn:Hname.
  - rewrite TimelineFacts.resolveSources_checked by done. cbn. tauto.
  - unfold resolveSources. rewrite Hname.
    destruct (String.eqb (timeline_name timeline) "MyDiscussions");
      [cbn; split; [done | by intros [? _]]|].
    destruct (String.eqb (timeline_name timeline) "RiverOfNews"
              && dynamicRiverOfNews config);
      [|cbn; split; [done | by intros [? _]]].
    destruct (getSubscriprionsIntIds db viewerId) as [destinations activities].
    destruct (String.eqb (homefeedMode params) HOMEFEED_MODE_FRIENDS_ALL_ACTIVITY);
      [cbn; split; [done | by intros [? _]]|].
    destruct (String.eqb (homefeedMode params) HOMEFEED_MODE_CLASSIC);
      cbn; (split; [done | by intros [? _]]).
Qed.

(** X6.  A refused read discloses nothing of the feed: with a limit that
    is not negative the answer is the identity of the timeline, no posts,
    comments, attachments, subscribers, subscriptions or admins,
    [isLastPage] true, and for users what the serializer makes of the
    owner's id alone. *)
Theorem refused_read_discloses_nothing (timeline : Timeline)
    (viewerId : option string) (pp : PartialParams) :
  let params := effectiveParams timeline viewerId pp in
  let owners := getUsersByIdsAssoc db [userId timeline] in
  0 <= limit params ->
  canViewUser (resolveSources db config timeline viewerId params) = false ->
  genericTimeline ser db config timeline viewerId pp
  = inr (mkFeed
           (mkTimelineJson (timeline_id timeline) (timeline_name timeline)
              (userId timeline) [] [])
           (filter (fun u => String.eqb (suser_type ser u) "user"
                             || String.eqb (suser_id ser u) (userId timeline)
                             = true)
              (userSerializerFunction ser owners
                 (getUsersStatsAssoc db [userId timeline]) []
               <$> (fst <$> owners)))
           [] [] [] true [] [] []).
Proof.
  intros params owners Hlimit Hrefused.
  unfold genericTimeline. cbv zeta. fold params.
  unfold fetchPostsIds. rewrite Hrefused.
  assert (Hlast : (len (@nil string) <=? limit params) = true)
    by (apply Z.leb_le; exact Hlimit).
  rewrite Hlast. reflexivity.
Qed.

(** X10.  [genericTimeline] fails exactly when the limit it is given is
    negative, and then with the [RangeError] of the assignment to
    [postsIds.length]; with any other limit it answers a feed. *)
Theorem genericTimeline_fails_iff_negative_limit (timeline : Timeline)
    (viewerId : option string) (pp : PartialParams) :
  let params := effectiveParams timeline viewerId pp in
  (genericTimeline ser db config timeline viewerId pp = inl RangeError
   <-> limit params < 0)
  /\ ((exists feed, genericTimeline ser db config timeline viewerId pp = inr feed)
      <-> 0 <= limit params)
  /\ (forall e, genericTimeline ser db config timeline viewerId pp = inl e ->
                e = RangeError).
Proof.
  intros params.
  destruct (Z.lt_ge_cases (limit params) 0) as [Hneg|Hpos].
  - assert (Hfail : genericTimeline ser db config timeline viewerId pp
                    = inl RangeError).
    { unfold genericTimeline. cbv zeta. fold params.
      set (fetched := fetchPostsIds db timeline viewerId params _).
      assert (Hlast : (len fetched <=? limit params) = false)
        by (apply Z.leb_gt; unfold len; lia).
      rewrite Hlast. cbn [negb]. by rewrite setLength_negative. }
    rewrite Hfail. split; [done|]. split; [|by intros e [= <-]].
    split; [by intros [feed ?] | lia].
  - destruct (TimelineFacts.genericTimeline_page ser db config timeline
                viewerId pp Hpos) as (feed & Hfeed & _).
    rewrite Hfeed. split; [split; [done | lia]|].
    split; [|done]. split; [done | by exists feed].
Qed.

End Facts.

End AccessFacts.

Module FeedFacts.
Import JS Timelines JSFacts.

Lemma includesOpt_true (x : option string) (arr : list (option string)) :
  includesOpt x arr = true <-> x ∈ arr.
Proof.
  unfold includesOpt. rewrite existsb_exists. split.
  - intros (y & Hy & Heq). apply bool_decide_eq_true in Heq. subst y.
    by apply list_elem_of_In.
  - intros Hx. exists x. split; [by apply list_elem_of_In|].
    by apply bool_decide_eq_true.
Qed.

Lemma setAdd_elem (s : list string) (x y : string) :
  y ∈ setAdd s x <-> y ∈ s \/ y = x.
Proof.
  unfold setAdd. destruct (includes x s) eqn:Hin.
  - apply includes_true in Hin. split; [by left|]. by intros [?| ->].
  - rewrite elem_of_app, list_elem_of_singleton. tauto.
Qed.

Lemma setAdd_NoDup (s : list string) (x : string) :
  NoDup s -> NoDup (setAdd s x).
Proof.
  intros Hs. unfold setAdd. destruct (includes x s) eqn:Hin; [done|].
  apply includes_false in Hin. apply NoDup_app. split; [done|].
  split; [|apply NoDup_singleton].
  intros y Hy Hx. apply list_elem_of_singleton in Hx. by subst y.
Qed.

Lemma setAddAll_elem (xs s : list string) (y : string) :
  y ∈ setAddAll s xs <-> y ∈ s \/ y ∈ xs.
Proof.
  unfold setAddAll. revert s. induction xs as [|x r IH]; intros s; cbn.
  - rewrite elem_of_nil. tauto.
  - rewrite IH, setAdd_elem, elem_of_cons. tauto.
Qed.

Lemma setAddAll_NoDup (xs s : list string) :
  NoDup s -> NoDup (setAddAll s xs).
Proof.
  unfold setAddAll. revert s. induction xs as [|x r IH]; intros s Hs; cbn;
    [done|]. by apply IH, setAdd_NoDup.
Qed.

(** [_.uniq] keeps one of each value, [_.compact] drops the empty one. *)
Lemma compact_uniq_spec (xs : list string) :
  NoDup (compact (uniq xs))
  /\ forall x, x ∈ compact (uniq xs) <-> x <> EmptyString /\ x ∈ xs.
Proof.
  unfold compact, uniq. split.
  - apply NoDup_filter, setAddAll_NoDup, NoDup_nil_2.
  - intros x. rewrite list_elem_of_filter, setAddAll_elem, elem_of_nil. tauto.
Qed.

(** [_.uniqBy(ds, 'id')] keeps the first destination of each id. *)
Lemma uniqById_elem (ds : list Destination) (seen : list string)
    (d : Destination) :
  d ∈ uniqById seen ds -> d ∈ ds /\ dest_id d ∉ seen.
Proof.
  revert seen. induction ds as [|d' r IH]; intros seen; cbn.
  - by intros ?%elem_of_nil.
  - destruct (includes (dest_id d') seen) eqn:Hseen.
    + intros [Hin Hnot]%IH. split; [by right | done].
    + apply includes_false in Hseen.
      intros [-> | [Hin Hnot]%IH]%elem_of_cons; [split; [by left | done]|].
      split; [by right|]. intros Hd. apply Hnot. by right.
Qed.

Lemma uniqById_NoDup (ds : list Destination) (seen : list string) :
  NoDup (dest_id <$> uniqById seen ds).
Proof.
  revert seen. induction ds as [|d r IH]; intros seen; cbn; [constructor|].
  destruct (includes (dest_id d) seen); [apply IH|].
  cbn. constructor; [|apply IH].
  intros (d' & Heq & Hin)%list_elem_of_fmap.
  apply uniqById_elem in Hin as [_ Hnot]. apply Hnot. rewrite Heq. by left.
Qed.

Lemma uniqById_complete (ds : list Destination) (seen : list string)
    (d : Destination) :
  d ∈ ds -> dest_id d ∉ seen -> dest_id d ∈ dest_id <$> uniqById seen ds.
Proof.
  revert seen. induction ds as [|d' r IH]; intros seen Hin Hnot; cbn.
  - by apply elem_of_nil in Hin.
  - destruct (includes (dest_id d') seen) eqn:Hseen.
    + apply includes_true in Hseen.
      apply elem_of_cons in Hin as [-> | Hin]; [done | by apply IH].
    + cbn. destruct (decide (dest_id d = dest_id d')) as [Heq|Hne].
      * rewrite Heq. by left.
      * right. apply elem_of_cons in Hin as [-> | Hin]; [done|].
        apply IH; [done|]. intros [?|?]%elem_of_cons; done.
Qed.

Section Facts.
Context {SPost SComment SAttachment SUser SCollection StatsRow : Type}.
Context (ser : Serializers SPost SComment SAttachment SUser SCollection StatsRow).
Context (db : DbAdapter StatsRow).
Context (config : Config).
Context (dateParse : string -> option Z).

(** X7.  The sources of the home feed.  The feed is never refused.  With
    [dynamicRiverOfNews] off it is read from its own timeline.  With it on,
    it is read from the destinations the viewer subscribes to; the mode
    'friends-all-activity' adds the activity feeds as sources and makes
    the author list the friends and the viewer, the viewer once when the
    friends are distinct; 'classic' passes the activity feeds aside and
    no authors; any other mode passes neither. *)
Theorem riverOfNews_sources (timeline : Timeline)
    (viewerId : option string) (pp : PartialParams) :
  let params := effectiveParams timeline viewerId pp in
  let src := resolveSources db config timeline viewerId params in
  let destinations := fst (getSubscriprionsIntIds db viewerId) in
  let activities := snd (getSubscriprionsIntIds db viewerId) in
  let friends := getUserFriendIds db viewerId in
  timeline_name timeline = "RiverOfNews" ->
  canViewUser src = true
  /\ (dynamicRiverOfNews config = false ->
      timelineIds src = [intId timeline]
      /\ activityFeedIds src = [] /\ authorsIds src = [])
  /\ (dynamicRiverOfNews config = true ->
      (homefeedMode params = HOMEFEED_MODE_FRIENDS_ALL_ACTIVITY ->
       timelineIds src = destinations ++ activities
       /\ activityFeedIds src = []
       /\ viewerId ∈ authorsIds src
       /\ (forall x, x ∈ authorsIds src
             <-> x = viewerId \/ exists f, f ∈ friends /\ x = Some f)
       /\ (NoDup friends -> NoDup (authorsIds src)))
      /\ (homefeedMode params = HOMEFEED_MODE_CLASSIC ->
          timelineIds src = destinations
          /\ activityFeedIds src = activities /\ authorsIds src = [])
      /\ (homefeedMode params <> HOMEFEED_MODE_FRIENDS_ALL_ACTIVITY ->
          homefeedMode params <> HOMEFEED_MODE_CLASSIC ->
          timelineIds src = destinations
          /\ activityFeedIds src = [] /\ authorsIds src = [])).
Proof.
  intros params src destinations activities friends Hname.
  assert (Hflag : withMyPosts params = false).
  { subst params. unfold effectiveParams, setWithMyPosts. cbn [withMyPosts].
    rewrite Hname. apply andb_false_r. }
  subst src destinations activities friends.
  unfold resolveSources. rewrite Hname, Hflag.
  cbn [String.eqb Ascii.eqb Bool.eqb includes existsb checkedFeeds orb andb].
  destruct (dynamicRiverOfNews config);
    [|by cbn; split; [|split; [|intros ?]]].
  destruct (getSubscriprionsIntIds db viewerId) as [destinations activities].
  cbn [fst snd].
  destruct (String.eqb_spec (homefeedMode params)
              HOMEFEED_MODE_FRIENDS_ALL_ACTIVITY) as [Hall|Hnotall].
  - cbn [app]. set (authors := Some <$> getUserFriendIds db viewerId).
    assert (Hauthors : forall x,
      x ∈ (if includesOpt viewerId authors then authors
           else authors ++ [viewerId])
      <-> x = viewerId
          \/ exists f, f ∈ getUserFriendIds db viewerId /\ x = Some f).
    { intros x. destruct (includesOpt viewerId authors) eqn:Hin.
      - apply includesOpt_true in Hin. unfold authors in *.
        rewrite list_elem_of_fmap. split.
        + intros (f & -> & Hf). right. by exists f.
        + intros [-> | (f & Hf & ->)]; [by apply list_elem_of_fmap|].
          by exists f.
      - rewrite elem_of_app, list_elem_of_singleton. unfold authors.
        rewrite list_elem_of_fmap. split.
        + intros [(f & -> & Hf) | ->]; [right; by exists f | by left].
        + intros [-> | (f & Hf & ->)]; [by right | left; by exists f]. }
    split; [done|]. split; [done|]. intros _.
    split; [|split]; [|by rewrite Hall|done].
    intros _. cbn [timelineIds activityFeedIds authorsIds].
    split; [done|]. split; [done|]. split; [apply Hauthors; by left|].
    split; [exact Hauthors|].
    intros Hdistinct.
    assert (Hfmap : NoDup authors) by (by apply (NoDup_fmap_2 Some)).
    destruct (includesOpt viewerId authors) eqn:Hin; [done|].
    apply NoDup_app. split; [done|]. split; [|apply NoDup_singleton].
    intros x Hx ->%list_elem_of_singleton.
    apply includesOpt_true in Hx. congruence.
  - destruct (String.eqb_spec (homefeedMode params) HOMEFEED_MODE_CLASSIC)
      as [Hclassic|Hother]; cbn;
      (split; [done|]); (split; [done|]); intros _;
      (split; [done|]); split; done.
Qed.

(** X8.  No query string reaches [withLocalBumps] or [withoutDirects]:
    they come from the route.  [userTimeline] never considers local bumps
    and leaves the direct messages out of every feed but Posts.
    [ownTimeline] considers local bumps exactly when its route asks for
    them, the user has an id and the sort is 'bumped'; sorting by
    'created' switches them off. *)
Theorem local_bumps_and_directs_come_from_the_route (ctx : Ctx)
    (timeline : Timeline) :
  (forall feedName,
     let params :=
       effectiveParams timeline (viewerIdOf ctx)
         (userTimelineParams dateParse feedName ctx) in
     withLocalBumps params = false
     /\ (withoutDirects params = true <-> feedName <> "Posts"))
  /\ (forall (route : PartialParams) (user : User),
        let common := getCommonParams dateParse ctx ORD_UPDATED in
        let params :=
          effectiveParams timeline (Some (user_id user))
            (spread route (ofCommon common)) in
        (withLocalBumps params = true
         <-> pp_withLocalBumps route = Some true
             /\ user_id user <> EmptyString
             /\ cp_sort common = ORD_UPDATED)
        /\ withoutDirects params = default false (pp_withoutDirects route)).
Proof.
  split.
  - intros feedName params. split; [reflexivity|].
    subst params. cbn.
    destruct (String.eqb_spec feedName "Posts"); cbn; split; congruence.
  - intros route user common params. split; [|reflexivity].
    subst params. unfold effectiveParams, setWithMyPosts, setWithLocalBumps.
    cbn [withLocalBumps withDefaults spread ofCommon pp_withLocalBumps later
         sort pp_sort default].
    rewrite !andb_true_iff, String.eqb_eq.
    destruct (pp_withLocalBumps route) as [[]|]; cbn;
      destruct (user_id user); cbn; intuition congruence.
Qed.

(** X9.  The sort of a request is its [sort] value when that is 'created'
    or 'bumped', and the default sort for any other value or none; the
    value 'updated' of the documentation is such another value.  With the
    default of the routes, 'bumped', the effective sort is always one of
    the two. *)
Theorem getCommonParams_sort (ctx : Ctx) (defaultSort : string) :
  let p := getCommonParams dateParse ctx defaultSort in
  let s := query_sort (query ctx) in
  (forall v, s = Some v -> v = ORD_CREATED \/ v = ORD_UPDATED -> cp_sort p = v)
  /\ (s = None \/ (exists v, s = Some v /\ v <> ORD_CREATED /\ v <> ORD_UPDATED)
      -> cp_sort p = defaultSort)
  /\ (s = Some "updated" -> cp_sort p = defaultSort)
  /\ (forall timeline viewerId route,
        sort (effectiveParams timeline viewerId (spread route (ofCommon p)))
        = cp_sort p)
  /\ (defaultSort = ORD_UPDATED ->
      cp_sort p = ORD_CREATED \/ cp_sort p = ORD_UPDATED).
Proof.
  intros p s. subst p s. unfold getCommonParams. cbn [cp_sort].
  destruct (query_sort (query ctx)) as [v|].
  - destruct (String.eqb_spec v ORD_CREATED) as [Hc|Hc];
      destruct (String.eqb_spec v ORD_UPDATED) as [Hu|Hu]; cbn [orb];
      (split; [intros v' [= <-] [?|?]; congruence|]);
      (split; [intros [? | (v' & [= <-] & ? & ?)]; congruence|]);
      (split; [intros [= ->]; done|]);
      (split; [done|]); intros ->; tauto.
  - split; [done|]. split; [done|]. split; [done|]. split; [done|].
    intros ->. by right.
Qed.

(** X11.  [bestOf] reads its limit and offset itself: no number or zero
    gives the default (30 and 0), any other number is used as it is, with
    no upper bound and no sign check.  The limit is never zero.  With a
    limit that is not negative the request is answered; with a negative
    one it fails with the [RangeError] of the assignment to
    [foundPosts.length], and it fails in no other way. *)
Theorem bestOf_limit_is_unchecked (ctx : Ctx) :
  let limitRead := parseInt10 (query_limit (query ctx)) in
  let offsetRead := parseInt10 (query_offset (query ctx)) in
  bestOfLimit ctx <> 0
  /\ (limitRead = None \/ limitRead = Some 0 -> bestOfLimit ctx = 30)
  /\ (forall n, limitRead = Some n -> n <> 0 -> bestOfLimit ctx = n)
  /\ (offsetRead = None -> bestOfOffset ctx = 0)
  /\ (forall n, offsetRead = Some n -> bestOfOffset ctx = n)
  /\ (bestOf ser db ctx = inl RangeError <-> bestOfLimit ctx < 0)
  /\ ((exists body, bestOf ser db ctx = inr body) <-> 0 <= bestOfLimit ctx)
  /\ (forall e, bestOf ser db ctx = inl e -> e = RangeError).
Proof.
  intros limitRead offsetRead. subst limitRead offsetRead.
  unfold bestOfLimit at 1 2 3, bestOfOffset, numberOr.
  split; [|split; [|split; [|split; [|split]]]].
  - destruct (parseInt10 (query_limit (query ctx))) as [n|]; [|done].
    by destruct (Z.eqb_spec n 0).
  - by intros [-> | ->].
  - intros n -> Hn. by destruct (Z.eqb_spec n 0).
  - by intros ->.
  - intros n ->. by destruct (Z.eqb_spec n 0) as [->|].
  - destruct (Z.lt_ge_cases (bestOfLimit ctx) 0) as [Hneg|Hpos].
    + rewrite (TimelineFacts.bestOf_negative_limit ser db ctx Hneg).
      split; [done|]. split; [|by intros e [= <-]].
      split; [by intros [body ?] | lia].
    + unfold bestOf.
      rewrite (TimelineFacts.bestOfPage_page db ctx Hpos).
      split; [split; [done | lia]|]. split; [|done].
      split; [done|]. by eexists.
Qed.

(** X12.  The lists of the answer.  With a limit that is not negative the
    request is answered, and in the answer:
    the subscriptions are destinations of the posts of the page, with
    pairwise distinct ids, and when the feed is not refused every id of
    such a destination is among them;
    the subscribers, the users and the admins are written by one
    [userSerializerFunction], built from the users and statistics of one
    list of ids and from the group administrators, which are read only
    when the feed is not refused;
    the subscribers are serialized from ids that are pairwise distinct
    and not empty: none when the feed is refused, and otherwise exactly
    the non-empty ids among the owner of the timeline, its subscribers
    and the users of the destinations of the posts of the page;
    every user listed has the type 'user' or is the owner of the
    timeline. *)
Theorem answer_lists_are_deduplicated (timeline : Timeline)
    (viewerId : option string) (pp : PartialParams) :
  let params := effectiveParams timeline viewerId pp in
  let src := resolveSources db config timeline viewerId params in
  0 <= limit params ->
  exists feed,
    genericTimeline ser db config timeline viewerId pp = inr feed
    /\ (let stuff :=
          getPostsWithStuffByIds db (tj_posts (timelines feed)) viewerId
            params in
        let allDestinations := concat (pws_destinations <$> stuff) in
        let destinationUsers := dest_user <$> allDestinations in
        NoDup (dest_id <$> subscriptions feed)
        /\ (forall d, d ∈ subscriptions feed ->
              canViewUser src = true /\ d ∈ allDestinations)
        /\ (canViewUser src = true ->
            forall d, d ∈ allDestinations ->
              dest_id d ∈ dest_id <$> subscriptions feed)
        /\ exists (adminsOf usersOf ids : list string),
             let groupAdmins :=
               if canViewUser src
               then getGroupsAdministratorsIds db adminsOf viewerId
               else [] in
             let serializeUser :=
               userSerializerFunction ser (getUsersByIdsAssoc db usersOf)
                 (getUsersStatsAssoc db usersOf) groupAdmins in
             subscribers feed = serializeUser <$> ids
             /\ users feed
                = filter
                    (fun u => String.eqb (suser_type ser u) "user"
                              || String.eqb (suser_id ser u) (userId timeline)
                              = true)
                    (serializeUser <$> (fst <$> getUsersByIdsAssoc db usersOf))
             /\ admins feed
                = (if canViewUser src
                   then serializeUser
                          <$> lookupOrEmpty groupAdmins (userId timeline)
                   else [])
             /\ NoDup ids
             /\ (forall x, x ∈ ids <->
                   canViewUser src = true
                   /\ x <> EmptyString
                   /\ (x = userId timeline
                       \/ x ∈ getTimelineSubscribersIds db
                                (timeline_id timeline)
                       \/ x ∈ destinationUsers)))
    /\ (forall u, u ∈ users feed ->
          suser_type ser u = "user" \/ suser_id ser u = userId timeline).
Proof using ser db config.
  clear dateParse. intros params src Hlimit.
  unfold genericTimeline. cbv zeta. fold params. fold src.
  set (fetched := fetchPostsIds db timeline viewerId params src).
  assert (Hcut : (if negb (len fetched <=? limit params)
                  then setLength fetched (limit params) else inr fetched)
                 = inr (take (Z.to_nat (limit params)) fetched)).
  { destruct (len fetched <=? limit params) eqn:Hlast; cbn [negb].
    - apply Z.leb_le in Hlast. unfold len in Hlast.
      by rewrite (take_ge fetched) by lia.
    - by apply setLength_page. }
  rewrite Hcut. eexists. split; [reflexivity|].
  cbn [subscriptions subscribers users admins timelines tj_posts].
  set (stuff := getPostsWithStuffByIds db
                  (take (Z.to_nat (limit params)) fetched) viewerId params).
  assert (Husers : forall p : PostWithStuff,
            dest_user <$> pws_destinations p
            = (fun p => dest_user <$> pws_destinations p) p) by done.
  assert (Hdest : dest_user <$> concat (pws_destinations <$> stuff)
                  = concat ((fun p => dest_user <$> pws_destinations p)
                            <$> stuff)).
  { induction stuff as [|p r IH]; [done|].
    cbn [fmap list_fmap concat]. rewrite fmap_app. f_equal. exact IH. }
  split; [|intros u [Hu _]%list_elem_of_filter;
           apply orb_true_iff in Hu as [Hu | Hu];
           apply String.eqb_eq in Hu; tauto].
  rewrite Hdest.
  destruct (canViewUser src).
  - split; [apply uniqById_NoDup|].
    split; [intros d [Hd _]%uniqById_elem; by split|].
    split.
    { intros _ d Hd. apply uniqById_complete; [done|].
      by intros ?%elem_of_nil. }
    eexists _, _, _. split; [reflexivity|]. split; [reflexivity|].
    split; [reflexivity|].
    match goal with |- NoDup (compact (uniq ?l)) /\ _ =>
      destruct (compact_uniq_spec l) as [Hdistinct Helem] end.
    split; [done|]. intros x. rewrite Helem.
    rewrite !elem_of_app, list_elem_of_singleton. tauto.
  - split; [constructor|].
    split; [by intros d ?%elem_of_nil|]. split; [done|].
    exists []. eexists. exists []. split; [reflexivity|].
    split; [reflexivity|]. split; [reflexivity|]. split; [constructor|].
    intros x. split; [by intros ?%elem_of_nil | by intros [? _]].
Qed.

End Facts.

End FeedFacts.

(** ** More on the Comment model *)

Module BodyFacts.
Import JS CommentModel JSFacts.

Lemma trimStart_head (s : string) (c : ascii) (r : string) :
  trimStart s = String c r -> isWhiteSpace c = false.
Proof.
  induction s as [|c' r' IH]; cbn; [done|].
  destruct (isWhiteSpace c') eqn:Hc; [done|]. by intros [= <- _].
Qed.

Lemma trimStart_kept (c : ascii) (r : string) :
  isWhiteSpace c = false -> trimStart (String c r) = String c r.
Proof. intros Hc. cbn. by rewrite Hc. Qed.

Lemma trimStart_empty (s : string) : trimStart s = EmptyString -> blank s.
Proof.
  unfold blank. induction s as [|c r IH]; cbn; [constructor|].
  destruct (isWhiteSpace c) eqn:Hc; [|done].
  intros Hr. constructor; [done | by apply IH].
Qed.

Lemma trimEnd_empty (s : string) : trimEnd s = EmptyString -> blank s.
Proof.
  unfold blank. induction s as [|c r IH]; cbn; [constructor|].
  destruct (trimEnd r) as [|c' r']; [|done].
  destruct (isWhiteSpace c) eqn:Hc; [|done].
  intros _. constructor; [done | by apply IH].
Qed.

Lemma trimEnd_head (c : ascii) (r : string) :
  isWhiteSpace c = false -> exists r', trimEnd (String c r) = String c r'.
Proof.
  intros Hc. cbn. destruct (trimEnd r) as [|c' r']; [|by eexists].
  rewrite Hc. by eexists.
Qed.

Lemma trimEnd_cons (c : ascii) (r : string) :
  trimEnd (String c r)
  = match trimEnd r with
    | EmptyString =>
        if isWhiteSpace c then EmptyString else String c EmptyString
    | r' => String c r'
    end.
Proof. reflexivity. Qed.

Lemma trimEnd_idempotent (s : string) : trimEnd (trimEnd s) = trimEnd s.
Proof.
  induction s as [|c r IH]; [done|]. rewrite (trimEnd_cons c r).
  destruct (trimEnd r) as [|c' r'] eqn:Hr.
  - destruct (isWhiteSpace c) eqn:Hc; [done|]. cbn. by rewrite Hc.
  - rewrite trimEnd_cons. by rewrite IH.
Qed.

Lemma trim_empty_iff (s : string) : trim s = EmptyString <-> blank s.
Proof.
  split; [|apply trim_blank].
  unfold trim. intros Hend. apply trimEnd_empty in Hend.
  destruct (trimStart s) as [|c r] eqn:Hstart; [by apply trimStart_empty|].
  apply trimStart_head in Hstart. unfold blank in Hend. cbn in Hend.
  apply Forall_cons in Hend as [Hc _]. congruence.
Qed.

Lemma trim_trimmed (s : string) :
  trimStart (trim s) = trim s /\ trimEnd (trim s) = trim s.
Proof.
  unfold trim. split; [|apply trimEnd_idempotent].
  destruct (trimStart s) as [|c r] eqn:Hstart; [done|].
  apply trimStart_head in Hstart.
  destruct (trimEnd_head c r Hstart) as [r' ->]. by apply trimStart_kept.
Qed.

(** X13.  A comment made by the constructor passes [validate] exactly when
    its body holds a character that is not white space and its [userId]
    and [postId] are present and not empty. *)
Theorem newComment_valid_iff (params : Params) :
  valid (newComment params) = true
  <-> (exists s, params_body params = Some s /\ ~ blank s)
      /\ truthy (params_userId params) = true
      /\ truthy (params_postId params) = true.
Proof.
  rewrite CommentFacts.valid_spec. unfold body, newComment. cbn.
  assert (Hbody : setBody (params_body params) <> EmptyString
                  <-> exists s, params_body params = Some s /\ ~ blank s).
  { unfold setBody. destruct (params_body params) as [[|c r]|].
    - split; [done|]. intros (s & [= <-] & Hs). destruct Hs. constructor.
    - split.
      + intros Hkept. eexists. split; [done|].
        intros Hblank. by apply Hkept, trim_blank.
      + intros (s & [= <-] & Hs) Hempty. by apply Hs, trim_empty_iff.
    - split; [done|]. by intros (s & ? & _). }
  by rewrite Hbody.
Qed.

(** X14.  The body a comment holds is trimmed: it has no white space at
    its start or at its end, and setting the body of a comment to the body
    it has changes nothing. *)
Theorem body_is_trimmed (newValue : option string) :
  let b := setBody newValue in
  trimStart b = b /\ trimEnd b = b /\ setBody (Some b) = b.
Proof.
  intros b.
  assert (Htrimmed : trimStart b = b /\ trimEnd b = b).
  { subst b. unfold setBody. destruct newValue as [[|c r]|]; [done| |done].
    apply trim_trimmed. }
  destruct Htrimmed as [Hstart Hend]. split; [done|]. split; [done|].
  unfold setBody at 1. destruct b as [|c r]; [done|].
  unfold trim. by rewrite Hstart, Hend.
Qed.

End BodyFacts.

Module StoreFacts.
Import JS CommentModel JSFacts.

(** X15.  [create] stores the record of a valid comment before it looks
    for the post: when the post does not exist the call fails with a
    [TypeError] and the record stays stored, while the posts, timelines,
    counters and notifications are as before. *)
Theorem create_on_missing_post_keeps_record (now1 now2 : Z) (newId : string)
    (this : Comment) (w : World) (user post : string) :
  body this <> EmptyString ->
  userId this = Some user -> user <> EmptyString ->
  postId this = Some post -> post <> EmptyString ->
  postRows w !! post = None ->
  create now1 now2 newId this w
  = (inl TypeError,
     setCommentRows w
       (<[newId := mkPayload (body this) user post
                     (StampNumber now1) (StampNumber now2)]> (commentRows w))).
Proof.
  intros Hbody Huser Huser' Hpost Hpost' Hmissing.
  assert (Hv : valid (mkComment (comment_id this) (body_ this) (userId this)
                        (postId this) (Some (StampNumber now1))
                        (Some (StampNumber now2))) = true).
  { apply CommentFacts.valid_spec. cbn. rewrite Huser, Hpost.
    by destruct user, post. }
  unfold create, bind, lift, validate. cbv zeta. rewrite Hv. cbn [negb].
  rewrite Huser, Hpost.
  unfold dbAdapter_createComment, Post_findById, deref, bind, ret, gets,
    modify, throw.
  cbn. rewrite Hmissing. reflexivity.
Qed.

(** What [destroy] does to the store when it succeeds. *)
Lemma destroy_store (this : Comment) (w : World)
    (commentId user post author timelineId : string) (n : Z) :
  comment_id this = Some commentId ->
  userId this = Some user ->
  postId this = Some post ->
  postRows w !! post = Some author ->
  commentsTimelineIds w !! user = Some timelineId ->
  statsComments w !! user = Some n ->
  exists r w2,
    destroy this w = (inr r, w2)
    /\ commentRows w2 = delete commentId (commentRows w)
    /\ postComments w2
       = alter (filter (fun x => x <> commentId)) post (postComments w)
    /\ published w2
       = DestroyCommentEvent (Some commentId) (Some post) :: published w
    /\ postRows w2 = postRows w
    /\ (hasOtherComment w user post commentId ->
        r = AnsweredTrue /\ statsComments w2 = statsComments w)
    /\ (~ hasOtherComment w user post commentId ->
        r = AnsweredStats (n - 1)
        /\ statsComments w2 = <[user := n - 1]> (statsComments w)).
Proof.
  intros Hid Huser Hpost Hrow Htl Hstats.
  pose proof (CommentFacts.anyByUser_remaining w user post commentId) as Hany.
  unfold destroy. rewrite Hid, Huser, Hpost.
  unfold pubSub_destroyComment, dbAdapter_deleteComment,
    dbAdapter_removeCommentFromPost, Post_findById, Post_getComments,
    User_findById, User_getCommentsTimelineId,
    dbAdapter_removePostFromTimeline, dbAdapter_deletePostUsageInTimeline,
    Stats_findById, Stats_removeComment, Stats_incr,
    deref, bind, ret, gets, modify, throw.
  cbn. rewrite Hrow. cbn.
  destruct (anyByUser _ (Some user)) eqn:Hother.
  - eexists _, _. split; [reflexivity|]. cbn.
    split; [done|]. split; [done|]. split; [done|]. split; [done|].
    split; [done|]. intros Hnone. destruct Hnone. by apply Hany.
  - repeat (cbn; rewrite ?Htl, ?Hstats).
    eexists _, _. split; [reflexivity|]. cbn.
    split; [done|]. split; [done|]. split; [done|]. split; [done|].
    split; [|done]. intros Hhas. apply Hany in Hhas. congruence.
Qed.

(** X16.  What a [destroy] that succeeds leaves behind, with or without
    another comment of the user on the post: the record of the comment is
    deleted, the comment is out of the comments of the post, one
    notification is published, and the posts are untouched.  The counter
    of the user is decremented only when no other comment of the user
    remains on the post; otherwise it is left as it was. *)
Theorem destroy_effects (this : Comment) (w : World)
    (commentId user post author timelineId : string) (n : Z) :
  comment_id this = Some commentId ->
  userId this = Some user ->
  postId this = Some post ->
  postRows w !! post = Some author ->
  commentsTimelineIds w !! user = Some timelineId ->
  statsComments w !! user = Some n ->
  exists r w2,
    destroy this w = (inr r, w2)
    /\ commentRows w2 = delete commentId (commentRows w)
    /\ postComments w2
       = alter (filter (fun x => x <> commentId)) post (postComments w)
    /\ published w2
       = DestroyCommentEvent (Some commentId) (Some post) :: published w
    /\ postRows w2 = postRows w
    /\ (hasOtherComment w user post commentId ->
        r = AnsweredTrue /\ statsComments w2 = statsComments w)
    /\ (~ hasOtherComment w user post commentId ->
        r = AnsweredStats (n - 1)
        /\ statsComments w2 = <[user := n - 1]> (statsComments w)).
Proof.
  intros Hid Huser Hpost Hrow Htl Hstats.
  by apply (destroy_store this w commentId user post author timelineId n).
Qed.

(** X18.  [destroy] publishes the notification and deletes the record
    before it looks for the post: when the post does not exist the call
    fails with a [TypeError], and the record is deleted and the
    notification published all the same. *)
Theorem destroy_on_missing_post_deletes_record (this : Comment) (w : World)
    (commentId post : string) :
  comment_id this = Some commentId ->
  postId this = Some post ->
  postRows w !! post = None ->
  exists w2,
    destroy this w = (inl TypeError, w2)
    /\ commentRows w2 = delete commentId (commentRows w)
    /\ published w2
       = DestroyCommentEvent (Some commentId) (Some post) :: published w
    /\ timelinePosts w2 = timelinePosts w
    /\ statsComments w2 = statsComments w.
Proof.
  intros Hid Hpost Hmissing.
  unfold destroy. rewrite Hid, Hpost.
  unfold pubSub_destroyComment, dbAdapter_deleteComment,
    dbAdapter_removeCommentFromPost, Post_findById,
    deref, bind, ret, gets, modify, throw.
  cbn. rewrite Hmissing. cbn. by eexists.
Qed.

Lemma filter_absent (l : list string) (c : string) :
  c ∉ l -> filter (fun x => x <> c) l = l.
Proof.
  induction l as [|x r IH]; [done|]. intros Hnot.
  apply not_elem_of_cons in Hnot as [Hne Hr].
  rewrite filter_cons_True by done. by rewrite IH.
Qed.

Lemma hasOtherComment_after_create (w w1 : World)
    (user post newId : string) (payload : Payload) :
  commentRows w1 = <[newId := payload]> (commentRows w) ->
  postComments w1
  = <[post := default [] (postComments w !! post) ++ [newId]]> (postComments w) ->
  hasOtherComment w1 user post newId <-> hasOtherComment w user post newId.
Proof.
  intros Hrows Hlist. unfold hasOtherComment. rewrite Hrows, Hlist.
  rewrite lookup_insert_eq. cbn.
  split; intros (c & row & Hne & Hin & Hrow & Hby); exists c, row;
    (split; [done|]).
  - rewrite lookup_insert_ne in Hrow by done.
    rewrite elem_of_app, list_elem_of_singleton in Hin.
    by destruct Hin as [Hin | ->].
  - rewrite lookup_insert_ne by done.
    rewrite elem_of_app. tauto.
Qed.

(** X17.  A comment is created under an id the store does not hold and
    destroyed again.  The records and the comments of the post are as
    before the comment.  When the user has no other comment on the post
    the counter of the user is as before as well; when the user has
    another one the counter is one more than before: the destroy did not
    count. *)
Theorem create_destroy_round_trip (now1 now2 : Z) (newId : string)
    (this : Comment) (w0 : World)
    (user post author timelineId : string) (n : Z) :
  body this <> EmptyString ->
  userId this = Some user -> user <> EmptyString ->
  postId this = Some post -> post <> EmptyString ->
  postRows w0 !! post = Some author ->
  commentsTimelineIds w0 !! user = Some timelineId ->
  statsComments w0 !! user = Some n ->
  commentRows w0 !! newId = None ->
  newId ∉ default [] (postComments w0 !! post) ->
  exists this' timelines w1 r w2,
    create now1 now2 newId this w0 = (inr (this', timelines), w1)
    /\ destroy this' w1 = (inr r, w2)
    /\ statsComments w1 !! user = Some (n + 1)
    /\ commentRows w2 = commentRows w0
    /\ default [] (postComments w2 !! post)
       = default [] (postComments w0 !! post)
    /\ (~ hasOtherComment w0 user post newId ->
        statsComments w2 !! user = Some n)
    /\ (hasOtherComment w0 user post newId ->
        statsComments w2 !! user = Some (n + 1)).
Proof.
  intros Hbody Huser Huser' Hpost Hpost' Hrow Htl Hstats Hfresh Hnew.
  pose proof (CommentFacts.create_valid now1 now2 newId this w0 user post
                author timelineId n Hbody Huser Huser' Hpost Hpost' Hrow Htl
                Hstats) as Hcreate.
  match type of Hcreate with _ = (inr (?c, _), ?w) =>
    set (this' := c) in *; set (w1 := w) in * end.
  assert (Hstats1 : statsComments w1 !! user = Some (n + 1))
    by apply lookup_insert_eq.
  destruct (destroy_store this' w1 newId user post author timelineId (n + 1))
    as (r & w2 & Hdestroy & Hrows & Hlist & _ & _ & Hkept & Hgone);
    [done..|].
  assert (Hsame : hasOtherComment w1 user post newId
                  <-> hasOtherComment w0 user post newId)
    by (by eapply hasOtherComment_after_create).
  exists this', [timelineId], w1, r, w2.
  split; [done|]. split; [done|]. split; [done|].
  split; [|split; [|split]].
  - rewrite Hrows. cbn. rewrite delete_insert_eq. by apply delete_id.
  - rewrite Hlist. cbn. rewrite lookup_alter_eq, lookup_insert_eq. cbn.
    rewrite filter_app, (filter_absent _ _ Hnew).
    rewrite (filter_cons_False _ newId []) by (by intros ?).
    by rewrite filter_nil, app_nil_r.
  - intros Hnone. destruct Hgone as [_ ->]; [by rewrite Hsame|].
    rewrite lookup_insert_eq. f_equal. lia.
  - intros Hother. destruct Hkept as [_ ->]; [by rewrite Hsame|]. done.
Qed.

End StoreFacts.

(** ** The properties above on the example data *)

Module ExtraWitnesses.
Import JS Timelines JSFacts Escapes Metatags Examples MoreExamples.

(** Nobody is called nobody, and the owner called gone is not active. *)
Lemma metatags_empty_body_witness :
  metatags "https://freefeed.net" lookupOwner "nobody" = EmptyString
  /\ metatags "https://freefeed.net" lookupOwner "gone" = EmptyString.
Proof.
  split.
  - apply (MetatagsFacts.metatags_empty_body "https://freefeed.net"
             lookupOwner "nobody").
    left. reflexivity.
  - apply (MetatagsFacts.metatags_empty_body "https://freefeed.net"
             lookupOwner "gone").
    right. eexists. split; reflexivity.
Defined.

(** Luna may read the feeds of Mars, who is public and in no ban relation
    with her; Zeus, whom Luna banned, may not read hers although he
    subscribes to her. *)
Lemma checkAccess_authenticated_witness :
  checkAccess exampleDb (Some "luna") mars = true
  /\ checkAccess exampleDb (Some "zeus") luna <> true.
Proof.
  assert (Hluna : "luna" <> EmptyString) by discriminate.
  assert (Hzeus : "zeus" <> EmptyString) by discriminate.
  destruct (AccessFacts.checkAccess_authenticated exampleDb "luna" mars Hluna)
    as [_ Hallowed].
  destruct (AccessFacts.checkAccess_authenticated exampleDb "zeus" luna Hzeus)
    as [Hrefused _].
  split.
  - apply Hallowed. right. split; [left; discriminate|].
    unfold banRelation. cbn.
    intros [Hin | Hin];
      repeat (apply elem_of_cons in Hin as [Hin | Hin]; [discriminate|]);
      by apply elem_of_nil in Hin.
  - intros Hcan. destruct (Hrefused Hcan) as [Hown | [_ Hban]]; [discriminate|].
    apply Hban. right. apply list_elem_of_further, list_elem_of_here.
Defined.

(** Mars is refused the Posts of Luna. *)
Lemma only_checked_feeds_are_refused_witness :
  canViewUser
    (resolveSources exampleDb exampleConfig (feedOf "luna" "Posts")
       (Some "mars") (withDefaults emptyParams)) = false.
Proof.
  apply (AccessFacts.only_checked_feeds_are_refused exampleDb exampleConfig
           (feedOf "luna" "Posts") (Some "mars") (withDefaults emptyParams)).
  split; reflexivity.
Defined.

Lemma refused_read_discloses_nothing_witness :
  genericTimeline exampleSer exampleDb exampleConfig (feedOf "luna" "Posts")
    (Some "mars") emptyParams
  = inr (mkFeed (mkTimelineJson "luna/Posts" "Posts" "luna" [] [])
           ["luna"] [] [] [] true [] [] []).
Proof.
  apply (AccessFacts.refused_read_discloses_nothing exampleSer exampleDb
           exampleConfig (feedOf "luna" "Posts") (Some "mars") emptyParams).
  - vm_compute. discriminate.
  - reflexivity.
Defined.

Lemma genericTimeline_fails_iff_negative_limit_witness :
  genericTimeline exampleSer exampleDb exampleConfig (feedOf "mars" "Posts")
    (Some "luna")
    (mkPartialParams (Some (-1)) None None None None None None None None None)
  = inl RangeError.
Proof.
  apply (AccessFacts.genericTimeline_fails_iff_negative_limit exampleSer
           exampleDb exampleConfig (feedOf "mars" "Posts") (Some "luna")
           (mkPartialParams (Some (-1)) None None None None None None None
              None None)).
  vm_compute. reflexivity.
Defined.

(** The home feed of Mars in the mode 'friends-all-activity'. *)
Lemma riverOfNews_sources_witness :
  let pp :=
    ofCommon (getCommonParams noDates
                (mkCtx (modeQuery "friends-all-activity") (Some mars) mars)
                "bumped") in
  let timeline := feedOf "mars" "RiverOfNews" in
  let src :=
    resolveSources homeDb exampleConfig timeline (Some "mars")
      (effectiveParams timeline (Some "mars") pp) in
  timelineIds src = [11; 21; 12; 13] /\ NoDup (authorsIds src).
Proof.
  intros pp timeline src.
  destruct (FeedFacts.riverOfNews_sources homeDb exampleConfig timeline
              (Some "mars") pp eq_refl) as (_ & _ & Hdynamic).
  destruct (Hdynamic eq_refl) as (Hall & _).
  destruct (Hall eq_refl) as (Hids & _ & _ & _ & Hdistinct).
  split; [exact Hids|]. apply Hdistinct. vm_compute. repeat constructor.
  intros Hin. inversion Hin.
Defined.

(** The home route with the default sort considers local bumps. *)
Lemma local_bumps_and_directs_come_from_the_route_witness :
  withLocalBumps
    (effectiveParams (feedOf "mars" "RiverOfNews") (Some "mars")
       (spread homeRoute
          (ofCommon (getCommonParams noDates
                       (mkCtx noQuery (Some mars) mars) "bumped"))))
  = true.
Proof.
  apply (proj2 (FeedFacts.local_bumps_and_directs_come_from_the_route noDates
                  (mkCtx noQuery (Some mars) mars)
                  (feedOf "mars" "RiverOfNews")) homeRoute mars).
  split; [reflexivity|]. split; [discriminate | reflexivity].
Defined.

Lemma getCommonParams_sort_witness :
  cp_sort (getCommonParams noDates (exampleCtx (sortQuery "updated")) "created")
  = "created"
  /\ cp_sort (getCommonParams noDates (exampleCtx (sortQuery "bumped")) "created")
     = "bumped".
Proof.
  split.
  - destruct (FeedFacts.getCommonParams_sort noDates
                (exampleCtx (sortQuery "updated")) "created")
      as (_ & _ & Hupdated & _).
    apply Hupdated. reflexivity.
  - destruct (FeedFacts.getCommonParams_sort noDates
                (exampleCtx (sortQuery "bumped")) "created")
      as (Hkept & _).
    apply Hkept; [reflexivity | by right].
Defined.

Lemma bestOf_limit_is_unchecked_witness :
  bestOf exampleSer exampleDb (mkCtx (limitQuery "-5") None mars)
  = inl RangeError
  /\ bestOfLimit (mkCtx (limitQuery "500") None mars) = 500.
Proof.
  destruct (FeedFacts.bestOf_limit_is_unchecked exampleSer exampleDb
              (mkCtx (limitQuery "-5") None mars))
    as (_ & _ & _ & _ & _ & Hfails & _).
  destruct (FeedFacts.bestOf_limit_is_unchecked exampleSer exampleDb
              (mkCtx (limitQuery "500") None mars))
    as (_ & _ & Hkept & _).
  split.
  - apply Hfails. vm_compute. reflexivity.
  - apply Hkept; [reflexivity | discriminate].
Defined.

(** Mars reads her own Posts in a database that lists Zeus twice among the
    subscribers of the timeline. *)
Lemma answer_lists_are_deduplicated_witness :
  exists feed,
    genericTimeline exampleSer homeDb exampleConfig (feedOf "mars" "Posts")
      (Some "mars") emptyParams = inr feed
    /\ NoDup (dest_id <$> subscriptions feed)
    /\ (forall u, u ∈ users feed ->
          suser_type exampleSer u = "user" \/ suser_id exampleSer u = "mars").
Proof.
  destruct (FeedFacts.answer_lists_are_deduplicated exampleSer homeDb
              exampleConfig (feedOf "mars" "Posts") (Some "mars") emptyParams)
    as (feed & Hfeed & (Hsubscriptions & _) & Husers).
  { vm_compute. discriminate. }
  exists feed. split; [exact Hfeed|]. split; [exact Hsubscriptions|].
  exact Husers.
Defined.

End ExtraWitnesses.

Module CommentExtraWitnesses.
Import JS CommentModel JSFacts CommentExamples MoreCommentExamples.

Lemma newComment_valid_iff_witness : valid (lunaComment " hi ") = true.
Proof.
  apply (BodyFacts.newComment_valid_iff
           (mkParams None (Some " hi ") (Some "luna") (Some "p1") None None)).
  split; [|split; reflexivity].
  exists " hi ". split; [reflexivity|].
  unfold blank. cbn. intros Hall.
  apply Forall_cons in Hall as [_ Hall].
  apply Forall_cons in Hall as [Hh _]. discriminate.
Defined.

(** Luna comments on the post p9, which does not exist. *)
Lemma create_on_missing_post_keeps_record_witness :
  create 5 6 "c9" strayComment freshWorld
  = (inl TypeError,
     setCommentRows freshWorld
       (<["c9" := mkPayload "hello" "luna" "p9" (StampNumber 5) (StampNumber 6)]>
          (commentRows freshWorld))).
Proof.
  apply (StoreFacts.create_on_missing_post_keeps_record 5 6 "c9" strayComment
           freshWorld "luna" "p9");
    first [reflexivity | discriminate].
Defined.

(** Luna destroys c1, her only comment on p1. *)
Lemma destroy_effects_witness :
  exists r w2,
    destroy firstComment commentedWorld = (inr r, w2)
    /\ commentRows w2 = delete "c1" (commentRows commentedWorld)
    /\ published w2 = [DestroyCommentEvent (Some "c1") (Some "p1")].
Proof.
  destruct (StoreFacts.destroy_effects firstComment commentedWorld
              "c1" "luna" "p1" "mars" "luna/Comments" 1
              eq_refl eq_refl eq_refl eq_refl eq_refl eq_refl)
    as (r & w2 & Hdestroy & Hrows & _ & Hpublished & _).
  by exists r, w2.
Defined.

(** Luna destroys c1 after the post p1 is gone. *)
Lemma destroy_on_missing_post_deletes_record_witness :
  exists w2,
    destroy firstComment orphanWorld = (inl TypeError, w2)
    /\ commentRows w2 = delete "c1" (commentRows orphanWorld).
Proof.
  destruct (StoreFacts.destroy_on_missing_post_deletes_record firstComment
              orphanWorld "c1" "p1" eq_refl eq_refl eq_refl)
    as (w2 & Hdestroy & Hrows & _).
  by exists w2.
Defined.

(** Luna comments on p1 and destroys the comment, first without and then
    with an earlier comment of hers on the post. *)
Lemma create_destroy_round_trip_witness :
  (exists this' timelines w1 r w2,
     create 5 6 "c2" (lunaComment "second") freshWorld
     = (inr (this', timelines), w1)
     /\ destroy this' w1 = (inr r, w2)
     /\ commentRows w2 = commentRows freshWorld)
  /\ (exists this' timelines w1 r w2,
        create 5 6 "c2" (lunaComment "second") commentedWorld
        = (inr (this', timelines), w1)
        /\ destroy this' w1 = (inr r, w2)
        /\ commentRows w2 = commentRows commentedWorld).
Proof.
  split.
  - destruct (StoreFacts.create_destroy_round_trip 5 6 "c2"
                (lunaComment "second") freshWorld
                "luna" "p1" "mars" "luna/Comments" 0)
      as (this' & timelines & w1 & r & w2 & Hcreate & Hdestroy & _ & Hrows & _);
      try first [reflexivity | discriminate].
    { vm_compute. intros Hin. inversion Hin. }
    by exists this', timelines, w1, r, w2.
  - destruct (StoreFacts.create_destroy_round_trip 5 6 "c2"
                (lunaComment "second") commentedWorld
                "luna" "p1" "mars" "luna/Comments" 1)
      as (this' & timelines & w1 & r & w2 & Hcreate & Hdestroy & _ & Hrows & _);
      try first [reflexivity | discriminate].
    { vm_compute. intros Hin. inversion Hin as [|? ? ? Hin']. inversion Hin'. }
    by exists this', timelines, w1, r, w2.
Defined.

End CommentExtraWitnesses.

(** ** The page of a feed read *)

Module PaginationFacts.
Import JS Timelines JSFacts Examples.

Lemma setLimit_back (p : Params) (l : Z) :
  setLimit (setLimit p l) (limit p) = p.
Proof. by destruct p. Qed.

Section Facts.
Context {SPost SComment SAttachment SUser SCollection StatsRow : Type}.
Context (ser : Serializers SPost SComment SAttachment SUser SCollection StatsRow).
Context (db : DbAdapter StatsRow).
Context (config : Config).
Context (dateParse : string -> option Z).

(** C3.  The read [bestOf] with the query [limit=-5], by any viewer and on
    any store, has no page.  Its limit is -5: [bestPosts] is asked for -4
    records, [isLastPage] is computed as false whatever is found, and the
    assignment [foundPosts.length = -5] raises a [RangeError], so that no
    posts and no [isLastPage] are answered.  [getCommonParams] reads the
    limit 30 from the same query, and [userTimeline] answers the same
    request with at most 30 posts. *)
Theorem bestOf_negative_limit_has_no_page (viewer : option User)
    (targetUser : User) :
  let ctx := mkCtx (limitQuery "-5") viewer targetUser in
  bestOfLimit ctx = -5
  /\ bestOfFound db ctx = bestPosts db viewer 0 (-4)
  /\ (len (bestOfFound db ctx) <=? bestOfLimit ctx) = false
  /\ bestOfPage db ctx = inl RangeError
  /\ bestOf ser db ctx = inl RangeError
  /\ cp_limit (getCommonParams dateParse ctx ORD_UPDATED) = 30
  /\ forall feedName,
       exists feed,
         userTimeline ser db config dateParse feedName ctx = inr feed
         /\ len (tj_posts (timelines feed)) <= 30
         /\ len (posts feed) <= 30.
Proof.
  intros ctx.
  assert (Hlimit : bestOfLimit ctx = -5) by reflexivity.
  assert (Hlast : (len (bestOfFound db ctx) <=? bestOfLimit ctx) = false).
  { rewrite Hlimit. apply Z.leb_gt. unfold len. lia. }
  split; [exact Hlimit|]. split; [reflexivity|]. split; [exact Hlast|].
  split; [|split; [|split]].
  - unfold bestOfPage. cbv zeta. rewrite Hlast, Hlimit. reflexivity.
  - apply TimelineFacts.bestOf_negative_limit. rewrite Hlimit. lia.
  - reflexivity.
  - intros feedName.
    destruct (TimelineFacts.genericTimeline_pagination ser db config
                (getUserNamedFeed db (user_id (state_targetUser ctx)) feedName)
                (viewerIdOf ctx) (userTimelineParams dateParse feedName ctx))
      as (_ & _ & feed & Hfeed & _ & Hids & Hposts & _).
    { apply (ParamsFacts.getCommonParams_limit_range dateParse ctx
               ORD_UPDATED). }
    by exists feed.
Qed.

(** X19.  The page of a read whose limit [L] is a number of records, from
    0 to [MAX_SAFE_INTEGER].
    [genericTimeline] passes its effective parameters to the store with
    the limit [L + 1] and nothing else changed, reads nothing when the
    feed is refused, and cuts the ids answered to the first [L]: at most
    [L] posts are returned, those of the ids kept; [isLastPage] is false
    when [L + 1] or more ids were fetched and true when at most [L] were,
    in which case all of them are returned.  For a store that answers the
    first [L + 1] of its [found] records this reads on the size of
    [found].
    Every request to [userTimeline] and [ownTimeline] has such a limit,
    at most 120, and is answered.
    [bestOf] with such a limit asks for [L + 1] best posts, answers the
    serialized first [L] of them, and [isLastPage] in the same way. *)
Theorem page_is_cut_from_one_extra_record :
  (forall (timeline : Timeline) (viewerId : option string)
          (pp : PartialParams),
     let params := effectiveParams timeline viewerId pp in
     let L := limit params in
     let src := resolveSources db config timeline viewerId params in
     let fetched := fetchPostsIds db timeline viewerId params src in
     0 <= L <= MAX_SAFE_INTEGER ->
     limit (pq_params (postsQuery params src)) = L + 1
     /\ setLimit (pq_params (postsQuery params src)) L = params
     /\ pq_authorsIds (postsQuery params src) = authorsIds src
     /\ pq_activityFeedIds (postsQuery params src) = activityFeedIds src
     /\ (canViewUser src = true ->
         fetched = getTimelinePostsIds db (timeline_name timeline)
                     (timelineIds src) viewerId (postsQuery params src))
     /\ (canViewUser src = false -> fetched = [])
     /\ exists feed,
          genericTimeline ser db config timeline viewerId pp = inr feed
          /\ tj_posts (timelines feed) = take (Z.to_nat L) fetched
          /\ isLastPage feed = (len fetched <=? L)
          /\ posts feed
             = (postJson ser (viewerHidesFeedId db viewerId)
                  <$> getPostsWithStuffByIds db (tj_posts (timelines feed))
                        viewerId params)
          /\ len (tj_posts (timelines feed)) <= L
          /\ len (posts feed) <= L
          /\ (L + 1 <= len fetched -> isLastPage feed = false)
          /\ (len fetched <= L ->
              isLastPage feed = true /\ tj_posts (timelines feed) = fetched)
          /\ (forall found : list string,
                fetched = take (Z.to_nat (L + 1)) found ->
                (L + 1 <= len found ->
                 isLastPage feed = false
                 /\ tj_posts (timelines feed) = take (Z.to_nat L) found)
                /\ (len found <= L ->
                    isLastPage feed = true
                    /\ tj_posts (timelines feed) = found)))
  /\ (forall (feedName : string) (ctx : Ctx),
        let L := cp_limit (getCommonParams dateParse ctx ORD_UPDATED) in
        0 <= L <= 120
        /\ (exists feed,
              userTimeline ser db config dateParse feedName ctx = inr feed
              /\ len (tj_posts (timelines feed)) <= L
              /\ len (posts feed) <= L)
        /\ (forall (route : PartialParams) (user : User),
              exists feed,
                ownTimeline ser db config dateParse feedName route user ctx
                = inr feed
                /\ len (tj_posts (timelines feed)) <= L
                /\ len (posts feed) <= L))
  /\ (forall ctx : Ctx,
        let L := bestOfLimit ctx in
        let found := bestOfFound db ctx in
        let page := take (Z.to_nat L) found in
        0 <= L <= MAX_SAFE_INTEGER ->
        found = bestPosts db (state_user ctx) (bestOfOffset ctx) (L + 1)
        /\ bestOfPage db ctx = inr (page, len found <=? L)
        /\ bestOf ser db ctx
           = inr (mkBestOfBody
                    (serializePostsCollection ser
                       (initRawPosts db page (viewerIdOf ctx))
                       (viewerIdOf ctx))
                    (len found <=? L))
        /\ len page <= L
        /\ (L + 1 <= len found -> (len found <=? L) = false)
        /\ (len found <= L -> (len found <=? L) = true /\ page = found)).
Proof.
  split; [|split].
  - intros timeline viewerId pp params L src fetched [HL _].
    destruct (TimelineFacts.genericTimeline_pagination ser db config timeline
                viewerId pp HL)
      as (Hquery & Hallowed & feed & Hfeed & Hrest).
    fold params L src fetched in Hquery, Hallowed, Hfeed, Hrest.
    destruct (TimelineFacts.genericTimeline_page ser db config timeline
                viewerId pp HL)
      as (feed' & Hfeed' & _ & Hlast & _ & _ & _ & Hjson).
    fold params L src fetched in Hfeed', Hlast, Hjson.
    assert (feed' = feed) as -> by congruence.
    split; [exact Hquery|]. split; [apply setLimit_back|].
    split; [reflexivity|]. split; [reflexivity|]. split; [exact Hallowed|].
    split.
    { intros Hrefused. subst fetched. unfold fetchPostsIds.
      by rewrite Hrefused. }
    exists feed. destruct Hrest as (Hids & Hrest).
    split; [exact Hfeed|]. split; [exact Hids|]. split; [exact Hlast|].
    split; [exact Hjson|]. exact Hrest.
  - intros feedName ctx L.
    pose proof (ParamsFacts.getCommonParams_limit_range dateParse ctx
                  ORD_UPDATED) as HL.
    split; [exact HL|]. split.
    + destruct (TimelineFacts.genericTimeline_pagination ser db config
                  (getUserNamedFeed db (user_id (state_targetUser ctx))
                     feedName)
                  (viewerIdOf ctx) (userTimelineParams dateParse feedName ctx))
        as (_ & _ & feed & Hfeed & _ & Hids & Hposts & _); [apply HL|].
      by exists feed.
    + intros route user.
      destruct (TimelineFacts.genericTimeline_pagination ser db config
                  (getUserNamedFeed db (user_id user) feedName)
                  (Some (user_id user))
                  (spread route (ofCommon
                     (getCommonParams dateParse ctx ORD_UPDATED))))
        as (_ & _ & feed & Hfeed & _ & Hids & Hposts & _); [apply HL|].
      by exists feed.
  - intros ctx L found page [HL _]. split; [reflexivity|].
    pose proof (TimelineFacts.bestOfPage_page db ctx HL) as Hpage.
    fold L found page in Hpage.
    split; [exact Hpage|]. split.
    { unfold bestOf. rewrite Hpage. reflexivity. }
    subst page. split; [rewrite len_take by done; lia|]. split.
    + intros Hmore. apply Z.leb_gt. lia.
    + intros Hfew. split; [by apply Z.leb_le|].
      unfold len in Hfew. apply take_ge. lia.
Qed.

End Facts.

End PaginationFacts.

Module PaginationWitnesses.
Import JS Timelines JSFacts Examples.

(** Luna asks for two of the three posts of Mars; the best posts are asked
    for two at a time as well. *)
Lemma page_is_cut_from_one_extra_record_witness :
  (exists feed,
     genericTimeline exampleSer exampleDb exampleConfig (feedOf "mars" "Posts")
       (Some "luna")
       (ofCommon (getCommonParams noDates
                    (mkCtx (limitQuery "2") (Some luna) mars) "bumped"))
     = inr feed
     /\ tj_posts (timelines feed) = ["m3"; "m2"]
     /\ isLastPage feed = false)
  /\ (let ctx := mkCtx (limitQuery "2") None mars in
      let page := take 2 (bestOfFound exampleDb ctx) in
      bestOf exampleSer exampleDb ctx
      = inr (mkBestOfBody
               (serializePostsCollection exampleSer
                  (initRawPosts exampleDb page None) None)
               false)
      /\ len page <= 2).
Proof.
  split.
  - destruct (proj1 (PaginationFacts.page_is_cut_from_one_extra_record
                       exampleSer exampleDb exampleConfig noDates)
                (feedOf "mars" "Posts") (Some "luna")
                (ofCommon (getCommonParams noDates
                             (mkCtx (limitQuery "2") (Some luna) mars) "bumped")))
      as (_ & _ & _ & _ & _ & _ & feed & Hfeed & Hposts & _ & _ & _ & _
          & Hmore & _).
    { vm_compute. split; discriminate. }
    exists feed. split; [exact Hfeed|]. split; [exact Hposts|].
    apply Hmore. vm_compute. discriminate.
  - destruct (proj2 (proj2 (PaginationFacts.page_is_cut_from_one_extra_record
                              exampleSer exampleDb exampleConfig noDates))
                (mkCtx (limitQuery "2") None mars))
      as (_ & _ & Hbody & Hlen & Hmore & _).
    { vm_compute. split; discriminate. }
    split; [|exact Hlen].
    rewrite Hbody, Hmore; [reflexivity|]. vm_compute. discriminate.
Defined.

End PaginationWitnesses.
